(** * Stamp text layout and safe-zone geometry (Cachetmarocweb)

    A shallow embedding of [TextPositioningService] (the text positioning
    utility of the stamp designer), of the canvas curved-text helper of the
    [useStampDesigner] hook and of the millimetre label of
    [SimplifiedTextEditor], followed by the properties of the layout engine.

    A JavaScript [number] is an IEEE 754 binary64 value: it is modelled by
    Rocq's primitive [float], whose operations are the same correctly
    rounded binary64 operations, so that every definition below evaluates
    to the value the program computes.  Array lengths and indices are
    natural numbers, converted with [of_nat] where the program mixes them
    with other numbers. *)

From Stdlib Require Import ZArith List Bool String Ascii Arith Lia Permutation.
From Stdlib Require Import Sorted.
From Stdlib Require Uint63.
From Stdlib Require Import Floats.
Import ListNotations.

Set Warnings "-inexact-float".
Local Open Scope float_scope.

(** ** JavaScript numbers *)

Module Js.

(** [Math.PI], the binary64 value nearest to pi. *)
Definition PI : float := 0x1.921fb54442d18p+1.

(** [ToBoolean] on a number: [NaN], [+0] and [-0] are falsy. *)
Definition toBoolean (x : float) : bool := negb (is_nan x || is_zero x).

(** [x || d] where [x] is a number. *)
Definition or_else (x d : float) : float := if toBoolean x then x else d.

(** [a > b] and [a >= b]. *)
Definition gtb (a b : float) : bool := b <? a.
Definition geb (a b : float) : bool := b <=? a.

(** [Math.pow(x, 2)]: the square, as fdlibm and V8 compute it for the
    exponent 2. *)
Definition pow2 (x : float) : float := x * x.

(** [Math.max(a, b)]: [NaN] if either is [NaN]; [+0] is larger than [-0]. *)
Definition max (a b : float) : float :=
  if is_nan a || is_nan b then nan
  else if a <? b then b
  else if b <? a then a
  else if is_zero a && get_sign a then b else a.

(** [Math.min(a, b)]: [NaN] if either is [NaN]; [-0] is smaller than [+0]. *)
Definition min (a b : float) : float :=
  if is_nan a || is_nan b then nan
  else if a <? b then a
  else if b <? a then b
  else if is_zero a && negb (get_sign a) then b else a.

(** A length or an index as a number.  The conversion is exact below
    2^53; an array or a string of the program is shorter than 2^32. *)
Definition of_nat (n : nat) : float := of_uint63 (Uint63.of_Z (Z.of_nat n)).

End Js.

(** ** The data model ([types/index.ts]) *)

Inductive Shape := rectangle | circle | square.

Definition Shape_eqb (a b : Shape) : bool :=
  match a, b with
  | rectangle, rectangle | circle, circle | square, square => true
  | _, _ => false
  end.

Inductive Alignment := left | center | right.

Inductive Curvature := top | bottom.

Inductive TextEffectType :=
  shadow | outline | none | separator | effectBold | effectItalic.

Record TextEffect := {
  type : TextEffectType;
  color : option string;
  blur : option float;
  thickness : option float;
  separatorChar : option string
}.

(** [StampTextLine].  The characters of [text] stand for the UTF-16 code
    units that [text.length] counts. *)
Record StampTextLine := {
  text : string;
  fontSize : float;
  fontFamily : string;
  bold : bool;
  italic : bool;
  alignment : Alignment;
  curved : bool;
  curvature : option Curvature;
  xPosition : float;
  yPosition : float;
  isDragging : option bool;
  letterSpacing : float;
  textEffect : option TextEffect
}.

(** Field updates of a copied line ([newLine.f = v] after [{ ...line }]). *)
Definition set_curved (v : bool) (l : StampTextLine) : StampTextLine :=
  {| text := text l; fontSize := fontSize l; fontFamily := fontFamily l;
     bold := bold l; italic := italic l; alignment := alignment l;
     curved := v; curvature := curvature l;
     xPosition := xPosition l; yPosition := yPosition l;
     isDragging := isDragging l; letterSpacing := letterSpacing l;
     textEffect := textEffect l |}.

Definition set_curvature (v : Curvature) (l : StampTextLine) : StampTextLine :=
  {| text := text l; fontSize := fontSize l; fontFamily := fontFamily l;
     bold := bold l; italic := italic l; alignment := alignment l;
     curved := curved l; curvature := Some v;
     xPosition := xPosition l; yPosition := yPosition l;
     isDragging := isDragging l; letterSpacing := letterSpacing l;
     textEffect := textEffect l |}.

Definition set_xPosition (v : float) (l : StampTextLine) : StampTextLine :=
  {| text := text l; fontSize := fontSize l; fontFamily := fontFamily l;
     bold := bold l; italic := italic l; alignment := alignment l;
     curved := curved l; curvature := curvature l;
     xPosition := v; yPosition := yPosition l;
     isDragging := isDragging l; letterSpacing := letterSpacing l;
     textEffect := textEffect l |}.

Definition set_yPosition (v : float) (l : StampTextLine) : StampTextLine :=
  {| text := text l; fontSize := fontSize l; fontFamily := fontFamily l;
     bold := bold l; italic := italic l; alignment := alignment l;
     curved := curved l; curvature := curvature l;
     xPosition := xPosition l; yPosition := v;
     isDragging := isDragging l; letterSpacing := letterSpacing l;
     textEffect := textEffect l |}.

(** [Partial<StampTextLine>] as [getDefaultLinePosition] fills it. *)
Module Partial.
Record StampTextLine := {
  xPosition : float;
  yPosition : float;
  curved : bool;
  curvature : Curvature;
  fontSize : float
}.
End Partial.

(** The safe-zone margins of [getSafeZone]. *)
Record SafeZone := {
  zoneTop : float;
  zoneRight : float;
  zoneBottom : float;
  zoneLeft : float
}.

(** ** [TextPositioningService] *)

Module TextPositioningService.

(** Safe zone margin in percentage (1mm = 2% of stamp size). *)
Definition MARGIN_PERCENT : float := 2.

(** [getDefaultLinePosition(index, totalLines, shape)]: both counts are
    plain numbers in the source and are kept as such. *)
Definition getDefaultLinePosition (index totalLines : float) (shape : Shape)
  : Partial.StampTextLine :=
  let line :=
    {| Partial.xPosition := 0; Partial.yPosition := 0;
       Partial.curved := false; Partial.curvature := top;
       Partial.fontSize := 16 |} in
  if Shape_eqb shape circle && Js.geb totalLines 2 then
    if index =? 0 then
      {| Partial.xPosition := Partial.xPosition line; Partial.yPosition := -70;
         Partial.curved := true; Partial.curvature := top;
         Partial.fontSize := 14 |}
    else if index =? totalLines - 1 then
      {| Partial.xPosition := Partial.xPosition line; Partial.yPosition := 70;
         Partial.curved := true; Partial.curvature := bottom;
         Partial.fontSize := 14 |}
    else
      let middleLineCount := totalLines - 2 in
      if Js.gtb middleLineCount 0 then
        let middleIndex := index - 1 in
        let spacing := 100 / (middleLineCount + 1) in
        {| Partial.xPosition := Partial.xPosition line;
           Partial.yPosition := -40 + (middleIndex + 1) * spacing;
           Partial.curved := Partial.curved line;
           Partial.curvature := Partial.curvature line;
           Partial.fontSize := Partial.fontSize line |}
      else line
  else
    let availableHeight := 180 in
    let spacing := if Js.gtb totalLines 1 then availableHeight / totalLines else 0 in
    let startY := - availableHeight / 2 + spacing / 2 in
    {| Partial.xPosition := Partial.xPosition line;
       Partial.yPosition := startY + index * spacing;
       Partial.curved := Partial.curved line;
       Partial.curvature := Partial.curvature line;
       Partial.fontSize :=
         if Js.gtb totalLines 3 then Js.max 12 (18 - totalLines)
         else Partial.fontSize line |}.

(** [calculateAvailableHeight(shape)]; [distributeLines] computes the same
    expression inline. *)
Definition calculateAvailableHeight (shape : Shape) : float :=
  if Shape_eqb shape circle then 160 else 180.

(** The [reduce] of [distributeLines]: the summed line heights. *)
Definition totalTextHeight (lines : list StampTextLine) : float :=
  fold_left (fun total line => total + fontSize line * 1.2) lines 0.

(** The [spacing] constant of [distributeLines]. *)
Definition distributeSpacing (lines : list StampTextLine) (shape : Shape) : float :=
  let availableHeight := calculateAvailableHeight shape in
  let lineCount := List.length lines in
  if (1 <? lineCount)%nat
  then (availableHeight - totalTextHeight lines) / Js.of_nat (lineCount - 1)
  else 0.

(** The callback of [lines.map] in [distributeLines], on one line: the new
    line and the value of [currentY] after it. *)
Definition distributeLine (shape : Shape) (lineCount : nat)
    (availableHeight spacing : float)
    (index : nat) (currentY : float) (line : StampTextLine)
  : StampTextLine * float :=
  let lineHeight := fontSize line * 1.2 in
  let yPosition := currentY + lineHeight / 2 in
  let currentY := currentY + (lineHeight + spacing) in
  let newLine := line in
  let newLine :=
    if Shape_eqb shape circle && (1 <? lineCount)%nat then
      if (index =? 0)%nat then set_curvature top (set_curved true newLine)
      else if (index =? lineCount - 1)%nat
      then set_curvature bottom (set_curved true newLine)
      else set_curved false newLine
    else newLine in
  (set_yPosition (yPosition / (availableHeight / 2) * 100) newLine, currentY).

(** [lines.map] with the captured, mutated [currentY] threaded through. *)
Fixpoint distributeFrom (shape : Shape) (lineCount : nat)
    (availableHeight spacing : float)
    (index : nat) (currentY : float) (lines : list StampTextLine)
  : list StampTextLine :=
  match lines with
  | [] => []
  | line :: rest =>
      let (newLine, currentY') :=
        distributeLine shape lineCount availableHeight spacing index currentY line in
      newLine ::
        distributeFrom shape lineCount availableHeight spacing (S index) currentY' rest
  end.

(** [distributeLines(lines, shape)]. *)
Definition distributeLines (lines : list StampTextLine) (shape : Shape)
  : list StampTextLine :=
  if (List.length lines =? 0)%nat then []
  else
    let availableHeight := calculateAvailableHeight shape in
    let spacing := distributeSpacing lines shape in
    distributeFrom shape (List.length lines) availableHeight spacing
      0%nat (- availableHeight / 2) lines.

(** The safe radius of a circle: [100 - margin * Math.sqrt(2)]. *)
Definition circleSafeRadius : float := 100 - MARGIN_PERCENT * sqrt 2.

(** [Math.sqrt(Math.pow(x || 0, 2) + Math.pow(y || 0, 2))]. *)
Definition distanceFromCenter (line : StampTextLine) : float :=
  sqrt (Js.pow2 (Js.or_else (xPosition line) 0)
        + Js.pow2 (Js.or_else (yPosition line) 0)).

(** [enforceSafeZone(line, shape)]. *)
Definition enforceSafeZone (line : StampTextLine) (shape : Shape) : StampTextLine :=
  let newLine := line in
  let margin := MARGIN_PERCENT in
  if Shape_eqb shape circle then
    let safeRadius := 100 - margin * sqrt 2 in
    let distanceFromCenter := distanceFromCenter line in
    if Js.gtb distanceFromCenter safeRadius then
      let ratio := safeRadius / distanceFromCenter in
      set_yPosition (Js.or_else (yPosition line) 0 * ratio)
        (set_xPosition (Js.or_else (xPosition line) 0 * ratio) newLine)
    else newLine
  else
    let safeMax := 100 - margin in
    let safeMin := - safeMax in
    set_yPosition (Js.min (Js.max (Js.or_else (yPosition line) 0) safeMin) safeMax)
      (set_xPosition (Js.min (Js.max (Js.or_else (xPosition line) 0) safeMin) safeMax)
         newLine).

(** [isOutsideSafeZone(line, shape)]. *)
Definition isOutsideSafeZone (line : StampTextLine) (shape : Shape) : bool :=
  let margin := MARGIN_PERCENT in
  if Shape_eqb shape circle then
    let safeRadius := 100 - margin * sqrt 2 in
    let distanceFromCenter := distanceFromCenter line in
    Js.gtb distanceFromCenter safeRadius
  else
    let safeMax := 100 - margin in
    let safeMin := - safeMax in
    Js.gtb (Js.or_else (xPosition line) 0) safeMax
    || (Js.or_else (xPosition line) 0 <? safeMin)
    || Js.gtb (Js.or_else (yPosition line) 0) safeMax
    || (Js.or_else (yPosition line) 0 <? safeMin).

(** The test of one pair of lines in [detectLineCollisions]. *)
Definition linesCollide (line1 line2 : StampTextLine) : bool :=
  let line1Height := Js.or_else (fontSize line1) 16 in
  let line2Height := Js.or_else (fontSize line2) 16 in
  let yDistance :=
    abs (Js.or_else (yPosition line1) 0 - Js.or_else (yPosition line2) 0) in
  let minRequiredDistance := (line1Height + line2Height) * 0.6 in
  let xDistance :=
    abs (Js.or_else (xPosition line1) 0 - Js.or_else (xPosition line2) 0) in
  let textWidth1 :=
    Js.of_nat (String.length (text line1)) * Js.or_else (fontSize line1) 16 * 0.6 in
  let textWidth2 :=
    Js.of_nat (String.length (text line2)) * Js.or_else (fontSize line2) 16 * 0.6 in
  let horizontalOverlap := xDistance <? (textWidth1 + textWidth2) / 2 in
  (yDistance <? minRequiredDistance) && horizontalOverlap.

(** [detectLineCollisions(lines, shape)]: the two nested index loops, each
    leaving with [true] at the first colliding pair. *)
Definition collisionLoops (lines : list StampTextLine) : bool :=
  existsb
    (fun i =>
       match nth_error lines i with
       | Some line1 =>
           existsb
             (fun j =>
                match nth_error lines j with
                | Some line2 => linesCollide line1 line2
                | None => false
                end)
             (seq (i + 1) (List.length lines - (i + 1)))
       | None => false
       end)
    (seq 0 (List.length lines - 1)).

Definition detectLineCollisions (lines : list StampTextLine) (shape : Shape) : bool :=
  if (List.length lines <? 2)%nat then false else collisionLoops lines.

(** [getSafeZone(shape)]. *)
Definition getSafeZone (shape : Shape) : SafeZone :=
  let margin := MARGIN_PERCENT in
  {| zoneTop := margin; zoneRight := margin;
     zoneBottom := margin; zoneLeft := margin |}.

(** [isTextWithinSafeZone(text, line, shape)]. *)
Definition isTextWithinSafeZone (text : string) (line : StampTextLine)
    (shape : Shape) : bool :=
  if (String.length text =? 0)%nat then true
  else
    let estimatedCharWidth := fontSize line * 0.6 in
    let estimatedTextWidth := Js.of_nat (String.length text) * estimatedCharWidth in
    let estimatedTextHeight := fontSize line * 1.2 in
    let textLeft := Js.or_else (xPosition line) 0 - estimatedTextWidth / 2 in
    let textRight := Js.or_else (xPosition line) 0 + estimatedTextWidth / 2 in
    let textTop := Js.or_else (yPosition line) 0 - estimatedTextHeight / 2 in
    let textBottom := Js.or_else (yPosition line) 0 + estimatedTextHeight / 2 in
    let safeZone := getSafeZone shape in
    let safeLeft := -100 + zoneLeft safeZone in
    let safeRight := 100 - zoneRight safeZone in
    let safeTop := -100 + zoneTop safeZone in
    let safeBottom := 100 - zoneBottom safeZone in
    if Shape_eqb shape rectangle || Shape_eqb shape square then
      Js.geb textLeft safeLeft
      && (textRight <=? safeRight)
      && Js.geb textTop safeTop
      && (textBottom <=? safeBottom)
    else if Shape_eqb shape circle then
      let safeRadius :=
        100 - Js.max (Js.max (Js.max (zoneTop safeZone) (zoneRight safeZone))
                        (zoneBottom safeZone)) (zoneLeft safeZone) in
      if curved line then
        let distanceFromCenter := abs (Js.or_else (yPosition line) 0) in
        distanceFromCenter + estimatedTextHeight / 2 <=? safeRadius
      else
        let distanceFromCenter :=
          sqrt (Js.pow2 (Js.or_else (xPosition line) 0)
                + Js.pow2 (Js.or_else (yPosition line) 0)) in
        let textBoxDiagonal :=
          sqrt (Js.pow2 (estimatedTextWidth / 2) + Js.pow2 (estimatedTextHeight / 2)) in
        distanceFromCenter + textBoxDiagonal <=? safeRadius
    else true.

(** The [forEach] of [getLinesOutsideSafeZone], from index [index] on. *)
Fixpoint outsideFrom (shape : Shape) (index : nat) (lines : list StampTextLine)
  : list nat :=
  match lines with
  | [] => []
  | line :: rest =>
      if negb (isTextWithinSafeZone (text line) line shape)
      then index :: outsideFrom shape (S index) rest
      else outsideFrom shape (S index) rest
  end.

(** [getLinesOutsideSafeZone(lines, shape)]. *)
Definition getLinesOutsideSafeZone (lines : list StampTextLine) (shape : Shape)
  : list nat :=
  if (List.length lines =? 0)%nat then [] else outsideFrom shape 0 lines.

End TextPositioningService.

(** ** Division with a zero-divisor trap

    JavaScript's [/] never throws; to state that a computation never divides
    by zero, the same computation is run with a division that fails on a
    zero divisor. *)

Module Checked.

Definition M (A : Type) : Type := option A.

Definition ret {A : Type} (a : A) : M A := Some a.

Definition bind {A B : Type} (c : M A) (k : A -> M B) : M B :=
  match c with
  | Some a => k a
  | None => None
  end.

Definition div (a b : float) : M float :=
  if is_zero b then None else Some (a / b).

End Checked.

Notation "x <- c ;; k" := (Checked.bind c (fun x => k))
  (at level 61, c at next level, right associativity).

Module DistributeChecked.
Import TextPositioningService.

(** [distributeSpacing] with every division trapped. *)
Definition distributeSpacing (lines : list StampTextLine) (shape : Shape)
  : Checked.M float :=
  let availableHeight := calculateAvailableHeight shape in
  let lineCount := List.length lines in
  if (1 <? lineCount)%nat
  then Checked.div (availableHeight - totalTextHeight lines) (Js.of_nat (lineCount - 1))
  else Checked.ret 0.

(** [distributeLine] with every division trapped. *)
Definition distributeLine (shape : Shape) (lineCount : nat)
    (availableHeight spacing : float)
    (index : nat) (currentY : float) (line : StampTextLine)
  : Checked.M (StampTextLine * float) :=
  let lineHeight := fontSize line * 1.2 in
  halfHeight <- Checked.div lineHeight 2 ;;
  let yPosition := currentY + halfHeight in
  let currentY := currentY + (lineHeight + spacing) in
  let newLine := line in
  let newLine :=
    if Shape_eqb shape circle && (1 <? lineCount)%nat then
      if (index =? 0)%nat then set_curvature top (set_curved true newLine)
      else if (index =? lineCount - 1)%nat
      then set_curvature bottom (set_curved true newLine)
      else set_curved false newLine
    else newLine in
  halfAvailable <- Checked.div availableHeight 2 ;;
  scaled <- Checked.div yPosition halfAvailable ;;
  Checked.ret (set_yPosition (scaled * 100) newLine, currentY).

Fixpoint distributeFrom (shape : Shape) (lineCount : nat)
    (availableHeight spacing : float)
    (index : nat) (currentY : float) (lines : list StampTextLine)
  : Checked.M (list StampTextLine) :=
  match lines with
  | [] => Checked.ret []
  | line :: rest =>
      r <- distributeLine shape lineCount availableHeight spacing index currentY line ;;
      out <- distributeFrom shape lineCount availableHeight spacing
               (S index) (snd r) rest ;;
      Checked.ret (fst r :: out)
  end.

(** [distributeLines] with every division trapped. *)
Definition distributeLines (lines : list StampTextLine) (shape : Shape)
  : Checked.M (list StampTextLine) :=
  if (List.length lines =? 0)%nat then Checked.ret []
  else
    let availableHeight := calculateAvailableHeight shape in
    spacing <- distributeSpacing lines shape ;;
    startY <- Checked.div (- availableHeight) 2 ;;
    distributeFrom shape (List.length lines) availableHeight spacing 0%nat startY lines.

End DistributeChecked.

(** ** The drawing surface

    The calls a routine makes on its [CanvasRenderingContext2D], in order. *)

Inductive CanvasOp :=
| save
| restore
| translate (x y : float)
| rotate (angle : float)
| setFont (italic bold : bool) (fontSize : float) (fontFamily : string)
| setTextAlign (align : string)
| setTextBaseline (baseline : string)
| setFillStyle (style : string)
| fillText (char : ascii) (x y : float).

(** The angle of the [rotate] that follows each per-character [save]: where
    the characters are drawn. *)
Fixpoint characterAngles (ops : list CanvasOp) : list float :=
  match ops with
  | save :: ((rotate angle :: _) as rest) => angle :: characterAngles rest
  | _ :: rest => characterAngles rest
  | [] => []
  end.

(** The [for] loop over the characters, written the same way in both
    curved-text routines: each character is drawn at [currentAngle], which
    then advances by [charAngle]. *)
Fixpoint drawCharacters (isBottomText : bool) (radius charAngle : float)
    (currentAngle : float) (chars : list ascii) : list CanvasOp :=
  match chars with
  | [] => []
  | c :: rest =>
      [save; rotate currentAngle; translate 0 (- radius)]
      ++ (if isBottomText then [rotate Js.PI] else [])
      ++ [fillText c 0 0; restore]
      ++ drawCharacters isBottomText radius charAngle (currentAngle + charAngle) rest
  end.

(** ** [useStampDesigner]: the canvas helper for curved text *)

Module UseStampDesigner.

Definition arcLength : float := Js.PI * 1.2.

(** [renderCurvedText(ctx, line, centerX, centerY, radius)]. *)
Definition renderCurvedText (line : StampTextLine) (centerX centerY radius : float)
  : list CanvasOp :=
  let text := text line in
  if (String.length text =? 0)%nat then []
  else
    let isBottomText := Js.gtb (Js.or_else (yPosition line) 0) 0 in
    let textLength := String.length text in
    let charAngle :=
      if (0 <? textLength)%nat then arcLength / Js.of_nat textLength else 0 in
    [save; translate centerX centerY]
    ++ (if isBottomText then [rotate Js.PI] else [])
    ++ drawCharacters isBottomText radius charAngle (- arcLength / 2)
         (list_ascii_of_string text)
    ++ [restore].

End UseStampDesigner.

(** ** [TextPositioningService]: curved text on a canvas *)

Module CurvedText.

(** [getCurvedTextAngles(line)]: the start and end angles. *)
Definition getCurvedTextAngles (line : StampTextLine) : float * float :=
  match curvature line with
  | Some bottom => (Js.PI / 4, Js.PI * 7 / 4)
  | _ => (- Js.PI / 4, Js.PI / 4)
  end.

(** [getCurvedTextRadius(line, stampRadius)]. *)
Definition getCurvedTextRadius (line : StampTextLine) (stampRadius : float) : float :=
  let radius := stampRadius * 0.8 in
  let radius :=
    if Js.toBoolean (yPosition line) then
      let absPosition := abs (yPosition line) in
      if Js.gtb absPosition 50
      then radius + stampRadius * 0.15 * ((absPosition - 50) / 50)
      else radius
    else radius in
  let safeRadius := stampRadius * (1 - TextPositioningService.MARGIN_PERCENT / 100) in
  Js.min radius safeRadius.

(** The sweep of [renderCurvedText]: [Math.abs(endAngle - startAngle)]. *)
Definition arcLength (isBottomText : bool) : float :=
  let startAngle := if isBottomText then Js.PI / 4 else - Js.PI / 4 in
  let endAngle := if isBottomText then Js.PI * 7 / 4 else Js.PI / 4 in
  abs (endAngle - startAngle).

(** [renderCurvedText(ctx, text, centerX, centerY, radius, line)]. *)
Definition renderCurvedText (text : string) (centerX centerY radius : float)
    (line : StampTextLine) : list CanvasOp :=
  if (String.length text =? 0)%nat then []
  else
    let isBottomText :=
      match curvature line with Some bottom => true | _ => false end in
    let textLength := String.length text in
    let startAngle := if isBottomText then Js.PI / 4 else - Js.PI / 4 in
    let charAngle := arcLength isBottomText / Js.of_nat textLength in
    [save; translate centerX centerY]
    ++ (if isBottomText then [rotate Js.PI] else [])
    ++ [setFont (italic line) (bold line) (fontSize line) (fontFamily line);
        setTextAlign "center"; setTextBaseline "middle"; setFillStyle "black"]
    ++ drawCharacters isBottomText radius charAngle startAngle
         (list_ascii_of_string text)
    ++ [restore].

End CurvedText.

(** ** [SimplifiedTextEditor]: positions in millimetres *)

Module SimplifiedTextEditor.

(** The [mmValue] of [formatPositionLabel]: [value / 4]. *)
Definition toMillimeters (coord : float) : float := coord / 4.

(** Modelled from the spec: the inverse conversion [toCoord], which the
    editor does not define; the specification gives it as [mm * 4]. *)
Definition toCoord (mm : float) : float := mm * 4.

End SimplifiedTextEditor.

(** ** The design and the product ([types/index.ts]) *)

Inductive LogoPosition := logoTop | logoBottom | logoLeft | logoRight | logoCenter.

Inductive BorderStyle := single | double | triple | noBorder.

Module Element.
Record StampElement := {
  id : string;
  type : string;
  dataUrl : string;
  width : float;
  height : float;
  x : float;
  y : float;
  isDragging : bool
}.
End Element.

Module Design.

Record StampDesign := {
  lines : list StampTextLine;
  inkColor : string;
  includeLogo : bool;
  logoPosition : LogoPosition;
  logoX : float;
  logoY : float;
  logoDragging : bool;
  logoImage : option string;
  shape : Shape;
  borderStyle : BorderStyle;
  elements : list Element.StampElement
}.

(** [{ ...design, lines: newLines }]. *)
Definition withLines (newLines : list StampTextLine) (d : StampDesign) : StampDesign :=
  {| lines := newLines; inkColor := inkColor d; includeLogo := includeLogo d;
     logoPosition := logoPosition d; logoX := logoX d; logoY := logoY d;
     logoDragging := logoDragging d; logoImage := logoImage d;
     shape := shape d; borderStyle := borderStyle d; elements := elements d |}.

End Design.

(** [Product]; [lines], the number of text lines the stamp can hold, is a
    count and is kept as a natural number. *)
Module Product.
End Product.

(** The [Partial<StampTextLine>] that [updateLine] merges into a line: a
    field is [None] when the object does not have the key. *)
Module Update.

Record StampTextLine := {
  text : option string;
  fontSize : option float;
  fontFamily : option string;
  bold : option bool;
  italic : option bool;
  alignment : option Alignment;
  curved : option bool;
  curvature : option Curvature;
  xPosition : option float;
  yPosition : option float;
  isDragging : option bool;
  letterSpacing : option float;
  textEffect : option TextEffect
}.

(** [{}]. *)
Definition empty : StampTextLine :=
  {| text := None; fontSize := None; fontFamily := None; bold := None;
     italic := None; alignment := None; curved := None; curvature := None;
     xPosition := None; yPosition := None; isDragging := None;
     letterSpacing := None; textEffect := None |}.

End Update.

Definition orKeep {A : Type} (update : option A) (old : A) : A :=
  match update with
  | Some v => v
  | None => old
  end.

Definition orKeepOption {A : Type} (update : option A) (old : option A) : option A :=
  match update with
  | Some v => Some v
  | None => old
  end.

(** [{ ...line, ...properties }]. *)
Definition mergeLine (line : StampTextLine) (properties : Update.StampTextLine)
  : StampTextLine :=
  {| text := orKeep (Update.text properties) (text line);
     fontSize := orKeep (Update.fontSize properties) (fontSize line);
     fontFamily := orKeep (Update.fontFamily properties) (fontFamily line);
     bold := orKeep (Update.bold properties) (bold line);
     italic := orKeep (Update.italic properties) (italic line);
     alignment := orKeep (Update.alignment properties) (alignment line);
     curved := orKeep (Update.curved properties) (curved line);
     curvature := orKeepOption (Update.curvature properties) (curvature line);
     xPosition := orKeep (Update.xPosition properties) (xPosition line);
     yPosition := orKeep (Update.yPosition properties) (yPosition line);
     isDragging := orKeepOption (Update.isDragging properties) (isDragging line);
     letterSpacing := orKeep (Update.letterSpacing properties) (letterSpacing line);
     textEffect := orKeepOption (Update.textEffect properties) (textEffect line) |}.

(** [copy[index] = value] on a copy of the array, for an index within it. *)
Fixpoint replaceAt {A : Type} (index : nat) (value : A) (l : list A) : list A :=
  match l, index with
  | [], _ => []
  | _ :: rest, O => value :: rest
  | a :: rest, S index' => a :: replaceAt index' value rest
  end.

(** [array.filter((_, i) => i !== index)], counting from [i]. *)
Fixpoint removeIndexFrom {A : Type} (i index : Z) (l : list A) : list A :=
  match l with
  | [] => []
  | a :: rest =>
      if (i =? index)%Z then removeIndexFrom (i + 1) index rest
      else a :: removeIndexFrom (i + 1) index rest
  end.

(** [array.map((line, index) => f(line, index))], counting from [index]. *)
Fixpoint mapIndexFrom {A B : Type} (f : A -> nat -> B) (index : nat) (l : list A)
  : list B :=
  match l with
  | [] => []
  | a :: rest => f a index :: mapIndexFrom f (S index) rest
  end.

(** ** [useStampDesigner]: the design state and its updates

    Each update is the function the hook passes to [setDesign], applied to
    the design it closes over: a callback is called on the design it was
    rendered with.  An index is any integer. *)

Module Hook.
Import Design.


(** The design [useState] starts with. *)
Definition initialDesign : StampDesign :=
  {| lines := []; inkColor := "blue"; includeLogo := false;
     logoPosition := logoCenter; logoX := 0; logoY := 0;
     logoDragging := false; logoImage := None;
     shape := rectangle; borderStyle := single; elements := [] |}.




(** [calculateSafePosition(lineIndex, totalLines)]; [None] is the
    [undefined] of an array read out of range. *)
Definition calculateSafePosition (lineIndex totalLines : nat) : option float :=
  if (totalLines =? 1)%nat then Some 0
  else if (totalLines =? 2)%nat then Some (if (lineIndex =? 0)%nat then -25 else 25)
  else if (totalLines =? 3)%nat then nth_error [-30; 0; 30] lineIndex
  else if (totalLines =? 4)%nat then nth_error [-35; -15; 15; 35] lineIndex
  else
    let spacing := 70 / (Js.of_nat totalLines - 1) in
    Some (-35 + Js.of_nat lineIndex * spacing).

(** [redistributeLines(lines)].  A position read out of range would be
    stored as [undefined]; it is written [nan] here and never occurs
    ([redistributeLines_positions]). *)
Definition redistributeLines (lines : list StampTextLine) : list StampTextLine :=
  mapIndexFrom
    (fun line index =>
       set_yPosition
         (match calculateSafePosition index (List.length lines) with
          | Some y => y
          | None => nan
          end) line)
    0 lines.


(** [updateLine(index, properties)]. *)
Definition updateLine (index : Z) (properties : Update.StampTextLine)
    (currentDesign : StampDesign) : StampDesign :=
  if (index <? 0)%Z || (Z.of_nat (List.length (lines currentDesign)) <=? index)%Z
  then currentDesign
  else
    match nth_error (lines currentDesign) (Z.to_nat index) with
    | Some line =>
        withLines
          (replaceAt (Z.to_nat index) (mergeLine line properties) (lines currentDesign))
          currentDesign
    | None => currentDesign
    end.

(** [removeLine(index)]. *)
Definition removeLine (index : Z) (currentDesign : StampDesign) : StampDesign :=
  if (List.length (lines currentDesign) <=? 1)%nat then currentDesign
  else
    let newLines := removeIndexFrom 0 index (lines currentDesign) in
    withLines (redistributeLines newLines) currentDesign.


(** What [toggleCurvedText] does to the line it is given. *)
Definition toggleCurved (position : Curvature) (currentLine : StampTextLine)
  : StampTextLine :=
  if negb (curved currentLine)
  then set_curvature position (set_curved true currentLine)
  else
    match curvature currentLine, position with
    | Some top, top | Some bottom, bottom => set_curved false currentLine
    | _, _ => set_curvature position currentLine
    end.

(** [toggleCurvedText(index, position = 'top')]. *)
Definition toggleCurvedText (index : Z) (position : Curvature)
    (currentDesign : StampDesign) : StampDesign :=
  if (index <? 0)%Z || (Z.of_nat (List.length (lines currentDesign)) <=? index)%Z
  then currentDesign
  else
    match nth_error (lines currentDesign) (Z.to_nat index) with
    | Some currentLine =>
        withLines
          (replaceAt (Z.to_nat index) (toggleCurved position currentLine)
             (lines currentDesign))
          currentDesign
    | None => currentDesign
    end.

(** [updateTextPosition(index, x, y)]. *)
Definition updateTextPosition (index : Z) (x y : float)
    (currentDesign : StampDesign) : StampDesign :=
  if (index <? 0)%Z || (Z.of_nat (List.length (lines currentDesign)) <=? index)%Z
  then currentDesign
  else
    match nth_error (lines currentDesign) (Z.to_nat index) with
    | Some line =>
        withLines
          (replaceAt (Z.to_nat index) (set_yPosition y (set_xPosition x line))
             (lines currentDesign))
          currentDesign
    | None => currentDesign
    end.




(** The body of the inner loop of [detectTextCollisions]: a pair with an
    empty text is skipped, another one collides when the anchors are
    closer than 20. *)
Definition tooClose (line1 line2 : StampTextLine) : bool :=
  if (String.length (text line1) =? 0)%nat || (String.length (text line2) =? 0)%nat
  then false
  else
    let dx := Js.or_else (xPosition line1) 0 - Js.or_else (xPosition line2) 0 in
    let dy := Js.or_else (yPosition line1) 0 - Js.or_else (yPosition line2) 0 in
    let distance := sqrt (dx * dx + dy * dy) in
    distance <? 20.

(** [detectTextCollisions()]. *)
Definition detectTextCollisions (design : StampDesign) : bool :=
  existsb
    (fun i =>
       match nth_error (lines design) i with
       | Some line1 =>
           existsb
             (fun j =>
                match nth_error (lines design) j with
                | Some line2 => tooClose line1 line2
                | None => false
                end)
             (seq (i + 1) (List.length (lines design) - (i + 1)))
       | None => false
       end)
    (seq 0 (List.length (lines design))).

(** The zoom level [useState] starts with, [zoomIn()] and [zoomOut()]. *)
Definition initialZoomLevel : float := 1.

Definition zoomIn (prev : float) : float := Js.min (prev + 0.25) 2.5.

Definition zoomOut (prev : float) : float := Js.max (prev - 0.25) 0.75.

End Hook.

(** ** [useStampDesignerEnhanced]: the design with its history

    The updates the text editors call.  An update closes over the present
    design and hands [setHistory] a function of the previous history; both
    are the history the update is applied to. *)

Module Enhanced.
Import Design.

Record DesignHistoryState := {
  past : list StampDesign;
  present : StampDesign;
  future : list StampDesign
}.

(** [updateHistory(updatedDesign)]. *)
Definition updateHistory (updatedDesign : StampDesign) (prev : DesignHistoryState)
  : DesignHistoryState :=
  {| past := past prev ++ [present prev];
     present := updatedDesign;
     future := [] |}.

(** [canUndo]. *)
Definition canUndo (history : DesignHistoryState) : bool :=
  (0 <? List.length (past history))%nat.

(** [undo()]. *)
Definition undo (history : DesignHistoryState) : DesignHistoryState :=
  if negb (canUndo history) then history
  else
    match nth_error (past history) (List.length (past history) - 1) with
    | Some newPresent =>
        {| past := removelast (past history);
           present := newPresent;
           future := present history :: future history |}
    | None => history
    end.

(** [updateLine(index, updates)].  The source does not check the index:
    outside the array it stores an object made of the updates alone, which
    is no [StampTextLine]; this is the [None] here. *)
Definition updateLine (index : Z) (updates : Update.StampTextLine)
    (history : DesignHistoryState) : option DesignHistoryState :=
  let design := present history in
  if (index <? 0)%Z then None
  else
    match nth_error (lines design) (Z.to_nat index) with
    | Some line =>
        let newLines :=
          replaceAt (Z.to_nat index) (mergeLine line updates) (lines design) in
        Some (updateHistory (withLines newLines design) history)
    | None => None
    end.

(** [toggleCurvedText(index, position = 'top')]; [None] is also the
    [TypeError] of reading [curved] off a missing line.  [position] is
    never falsy, so [position || ...] is [position]. *)
Definition toggleCurvedText (index : Z) (position : Curvature)
    (history : DesignHistoryState) : option DesignHistoryState :=
  let design := present history in
  if (index <? 0)%Z then None
  else
    match nth_error (lines design) (Z.to_nat index) with
    | Some currentLine =>
        let isCurved := negb (curved currentLine) in
        let curvature := position in
        updateLine index
          {| Update.text := None; Update.fontSize := None;
             Update.fontFamily := None; Update.bold := None;
             Update.italic := None; Update.alignment := None;
             Update.curved := Some isCurved;
             Update.curvature := Some (if isCurved then curvature else top);
             Update.xPosition := None; Update.yPosition := None;
             Update.isDragging := None; Update.letterSpacing := None;
             Update.textEffect := None |} history
    | None => None
    end.

End Enhanced.

(** ** The editors' controls for curved text

    The editors receive [lines] and the updates as props; a handler
    returns the call it makes, of a type [R] that is up to the hook. *)

Module EditorControls.

(** The values of the text style select of [SimplifiedTextEditor]:
    ['none'], ['top'] and ['bottom']. *)
Inductive TextStyle := straightText | curvedTop | curvedBottom.

(** The value the select shows:
    [line.curved ? (line.curvature || 'top') : 'none']. *)
Definition selectValue (line : StampTextLine) : TextStyle :=
  if curved line then
    match curvature line with
    | Some bottom => curvedBottom
    | _ => curvedTop
    end
  else straightText.

Section Props.

Context {R : Type}.
Variable updateLine : Z -> Update.StampTextLine -> R.

(** [onValueChange] of the select, for the line at [index]. *)
Definition onValueChange (toggleCurvedText : Z -> Curvature -> R)
    (index : nat) (value : TextStyle) : R :=
  match value with
  | straightText =>
      updateLine (Z.of_nat index)
        {| Update.text := None; Update.fontSize := None; Update.fontFamily := None;
           Update.bold := None; Update.italic := None; Update.alignment := None;
           Update.curved := Some false; Update.curvature := None;
           Update.xPosition := None; Update.yPosition := None;
           Update.isDragging := None; Update.letterSpacing := None;
           Update.textEffect := None |}
  | curvedTop => toggleCurvedText (Z.of_nat index) top
  | curvedBottom => toggleCurvedText (Z.of_nat index) bottom
  end.

(** [handleToggleCurvedText(index, e)] of [TextLinesEditor]; [None] is the
    [TypeError] of reading [curved] off a missing line. *)
Definition handleToggleCurvedText (toggleCurvedText : Z -> R)
    (lines : list StampTextLine) (index : nat) : option R :=
  match nth_error lines index with
  | None => None
  | Some line =>
      if negb (curved line) then Some (toggleCurvedText (Z.of_nat index))
      else
        let newCurvature :=
          match curvature line with
          | Some top => bottom
          | _ => top
          end in
        Some (updateLine (Z.of_nat index)
                {| Update.text := None; Update.fontSize := None;
                   Update.fontFamily := None; Update.bold := None;
                   Update.italic := None; Update.alignment := None;
                   Update.curved := None; Update.curvature := Some newCurvature;
                   Update.xPosition := None; Update.yPosition := None;
                   Update.isDragging := None; Update.letterSpacing := None;
                   Update.textEffect := None |})
  end.

End Props.

End EditorControls.

(** ** What the drawing calls do to a canvas

    The part of a [CanvasRenderingContext2D] the routines touch: the
    drawing state ([save] pushes a copy of it, [restore] pops one, and does
    nothing on an empty stack) and the characters painted so far, each with
    the state it was painted in. *)

Module Canvas.

Inductive Transform :=
| translated (x y : float)
| rotated (angle : float).

Record DrawingState := {
  transforms : list Transform;
  font : option (bool * bool * float * string);
  textAlign : option string;
  textBaseline : option string;
  fillStyle : option string
}.

Record Context := {
  current : DrawingState;
  stack : list DrawingState;
  painted : list (ascii * float * float * DrawingState)
}.

Definition withTransform (t : Transform) (s : DrawingState) : DrawingState :=
  {| transforms := transforms s ++ [t]; font := font s; textAlign := textAlign s;
     textBaseline := textBaseline s; fillStyle := fillStyle s |}.

Definition exec (ctx : Context) (op : CanvasOp) : Context :=
  match op with
  | save =>
      {| current := current ctx; stack := current ctx :: stack ctx;
         painted := painted ctx |}
  | restore =>
      match stack ctx with
      | s :: rest => {| current := s; stack := rest; painted := painted ctx |}
      | [] => ctx
      end
  | translate x y =>
      {| current := withTransform (translated x y) (current ctx);
         stack := stack ctx; painted := painted ctx |}
  | rotate angle =>
      {| current := withTransform (rotated angle) (current ctx);
         stack := stack ctx; painted := painted ctx |}
  | setFont italic bold fontSize fontFamily =>
      {| current :=
           {| transforms := transforms (current ctx);
              font := Some (italic, bold, fontSize, fontFamily);
              textAlign := textAlign (current ctx);
              textBaseline := textBaseline (current ctx);
              fillStyle := fillStyle (current ctx) |};
         stack := stack ctx; painted := painted ctx |}
  | setTextAlign align =>
      {| current :=
           {| transforms := transforms (current ctx); font := font (current ctx);
              textAlign := Some align;
              textBaseline := textBaseline (current ctx);
              fillStyle := fillStyle (current ctx) |};
         stack := stack ctx; painted := painted ctx |}
  | setTextBaseline baseline =>
      {| current :=
           {| transforms := transforms (current ctx); font := font (current ctx);
              textAlign := textAlign (current ctx);
              textBaseline := Some baseline;
              fillStyle := fillStyle (current ctx) |};
         stack := stack ctx; painted := painted ctx |}
  | setFillStyle style =>
      {| current :=
           {| transforms := transforms (current ctx); font := font (current ctx);
              textAlign := textAlign (current ctx);
              textBaseline := textBaseline (current ctx);
              fillStyle := Some style |};
         stack := stack ctx; painted := painted ctx |}
  | fillText char x y =>
      {| current := current ctx; stack := stack ctx;
         painted := painted ctx ++ [(char, x, y, current ctx)] |}
  end.

Definition run (ops : list CanvasOp) (ctx : Context) : Context :=
  fold_left exec ops ctx.

End Canvas.

(** ** Auxiliary notions the properties are stated with *)

(** Some element of the list, paired with a later one, passes [test]. *)
Fixpoint anyPair {A : Type} (test : A -> A -> bool) (l : list A) : bool :=
  match l with
  | [] => false
  | a :: rest => existsb (test a) rest || anyPair test rest
  end.

(** The number 4 as sign, mantissa and exponent: 2^52 * 2^-50. *)
Definition four_SF : spec_float := S754_finite false 4503599627370496 (-50).

(** The least magnitude whose quarter is still a normal number: 2^-1020. *)
Definition smallestExactQuarter : float := 0x1p-1020.

(** The smallest positive number, 2^-1074 (printed 5e-324). *)
Definition minSubnormal : float := 0x1p-1074.

(** The largest length of a JavaScript array: 2^32 - 1. *)
Definition maxArrayLength : Z := 4294967295.

(** A line of text [t] at position [(x, y)], with the editor's default
    style. *)
Definition sampleLine (t : string) (x y : float) : StampTextLine :=
  {| text := t; fontSize := 16; fontFamily := "Arial";
     bold := false; italic := false; alignment := center;
     curved := false; curvature := Some top;
     xPosition := x; yPosition := y;
     isDragging := Some false; letterSpacing := 0; textEffect := None |}.

(** The place of a number in the order of the binary64 values, as three
    integers compared lexicographically: the sign class, then the exponent
    and the mantissa (negated for a negative number).  [NaN] has no place;
    it is given the key of zero and kept apart by [is_nan]. *)
Definition orderKey (x : spec_float) : Z * Z * Z :=
  match x with
  | S754_infinity false => (2, 0, 0)%Z
  | S754_finite false m e => (1, e, Z.pos m)%Z
  | S754_zero _ => (0, 0, 0)%Z
  | S754_nan => (0, 0, 0)%Z
  | S754_finite true m e => (-1, - e, - Z.pos m)%Z
  | S754_infinity true => (-2, 0, 0)%Z
  end.

Definition keyLt (a b : Z * Z * Z) : Prop :=
  (fst (fst a) < fst (fst b)
   \/ (fst (fst a) = fst (fst b)
       /\ (snd (fst a) < snd (fst b)
           \/ (snd (fst a) = snd (fst b) /\ snd a < snd b))))%Z.

Definition keyLe (a b : Z * Z * Z) : Prop := keyLt a b \/ a = b.

Definition fkey (f : float) : Z * Z * Z := orderKey (Prim2SF f).

(** A number that is a zero of either sign, or [NaN]. *)
Definition zeroOrNaN (f : float) : Prop :=
  match Prim2SF f with
  | S754_zero _ | S754_nan => True
  | _ => False
  end.

(** All fields of two lines agree, except perhaps [yPosition]. *)
Definition sameButY (a b : StampTextLine) : Prop :=
  set_yPosition 0 a = set_yPosition 0 b.

(** All fields of two lines agree, except perhaps the position. *)
Definition sameButPosition (a b : StampTextLine) : Prop :=
  set_yPosition 0 (set_xPosition 0 a) = set_yPosition 0 (set_xPosition 0 b).

(** All fields of two lines agree, except perhaps [curved] and
    [curvature]. *)
Definition sameButCurve (a b : StampTextLine) : Prop :=
  set_curvature top (set_curved false a) = set_curvature top (set_curved false b).

(** The zoom levels within reach of [zoomIn] and [zoomOut]. *)
Definition zoomLevels : list float := [0.75; 1; 1.25; 1.5; 1.75; 2; 2.25; 2.5].

(** The positions [calculateSafePosition] gives the lines of a stamp of
    [totalLines] lines, from the first to the last. *)
Definition safePositions (totalLines : nat) : list (option float) :=
  map (fun lineIndex => Hook.calculateSafePosition lineIndex totalLines)
      (seq 0 totalLines).

(** Every position is defined and within [-35, 35], and each is below the
    next. *)
Fixpoint positionsAscend (l : list (option float)) : bool :=
  match l with
  | [] => true
  | None :: _ => false
  | Some a :: rest =>
      (-35 <=? a) && (a <=? 35)
      && match rest with
         | Some b :: _ => a <? b
         | None :: _ => false
         | [] => true
         end
      && positionsAscend rest
  end.


(** The characters painted on a canvas, in the order they were painted. *)
Definition paintedText (ctx : Canvas.Context) : list ascii :=
  map (fun p => fst (fst (fst p))) (Canvas.painted ctx).


(** The line has a text ([line.text] is truthy). *)
Definition hasText (line : StampTextLine) : bool :=
  negb (String.length (text line) =? 0)%nat.


(** * Properties *)

(** ** Facts about binary64 arithmetic

    Derived from the specification of the primitive operations
    ([FloatAxioms]) over [SpecFloat]. *)

Module FloatFacts.

(** *** Classification *)

Lemma SFcompare_refl (x : spec_float) :
  x <> S754_nan -> SFcompare x x = Some Eq.
Proof.
  destruct x as [s|s| |s m e]; intros H; try (destruct s; reflexivity).
  - congruence.
  - cbn. destruct s; rewrite Z.compare_refl, Pos.compare_cont_refl; reflexivity.
Qed.

Lemma is_nan_spec (v : float) :
  is_nan v = match Prim2SF v with S754_nan => true | _ => false end.
Proof.
  unfold is_nan. rewrite eqb_spec. unfold SFeqb.
  destruct (Prim2SF v) as [s|s| |s m e] eqn:E; try reflexivity;
    rewrite SFcompare_refl by discriminate; reflexivity.
Qed.

Lemma is_zero_spec (v : float) :
  is_zero v = match Prim2SF v with S754_zero _ => true | _ => false end.
Proof.
  unfold is_zero. rewrite eqb_spec.
  change (Prim2SF zero) with (S754_zero false).
  destruct (Prim2SF v) as [s|s| |s m e]; try reflexivity; destruct s; reflexivity.
Qed.

Lemma is_infinity_spec (v : float) :
  is_infinity v = match Prim2SF v with S754_infinity _ => true | _ => false end.
Proof.
  unfold is_infinity. rewrite eqb_spec, abs_spec.
  change (Prim2SF infinity) with (S754_infinity false).
  destruct (Prim2SF v) as [s|s| |s m e]; reflexivity.
Qed.

(** A number other than [NaN] is [==] to itself. *)
Lemma eqb_refl (v : float) : is_nan v = false -> (v =? v) = true.
Proof. unfold is_nan. destruct (v =? v); [reflexivity | discriminate]. Qed.

(** A valid finite number is within the exponent range and has a canonical
    mantissa. *)
Lemma valid_finite_inv (s : bool) (m : positive) (e : Z) :
  valid_binary (S754_finite s m e) = true ->
  (e <= 971)%Z /\ Z.max (Z.pos (digits2_pos m) + e - 53) (-1074) = e.
Proof.
  unfold valid_binary, SpecFloat.valid_binary, bounded, canonical_mantissa,
    fexp, SpecFloat.emin, prec, emax.
  intros H. apply andb_true_iff in H. destruct H as [H1 H2].
  apply Z.eqb_eq in H1. apply Z.leb_le in H2. split; [lia | exact H1].
Qed.

(** *** Order *)

Lemma compare_cont_swap (p q : positive) :
  Pos.compare_cont Eq q p = CompOpp (Pos.compare_cont Eq p q).
Proof. symmetry. apply (Pos.compare_cont_antisym p q Eq). Qed.

Lemma SFcompare_swap (x y : spec_float) :
  SFcompare y x = option_map CompOpp (SFcompare x y).
Proof.
  destruct x as [sx|sx| |sx mx ex], y as [sy|sy| |sy my ey];
    try reflexivity; try (destruct sx; reflexivity); try (destruct sy; reflexivity);
    try (destruct sx, sy; reflexivity).
  cbn. destruct sx, sy; try reflexivity;
    rewrite (Z.compare_antisym ey ex), (compare_cont_swap mx my);
    destruct (ey ?= ex)%Z; cbn; try rewrite CompOpp_involutive; reflexivity.
Qed.

(** [<] is asymmetric. *)
Lemma ltb_asym (a b : float) : (a <? b) = true -> (b <? a) = false.
Proof.
  rewrite !ltb_spec. unfold SFltb. rewrite (SFcompare_swap (Prim2SF a)).
  destruct (SFcompare (Prim2SF a) (Prim2SF b)) as [[| |]|]; cbn; congruence.
Qed.

(** *** Commutativity *)

(** The sign given to the rounding of a magnitude only shows in the sign
    of the result. *)
Lemma SFabs_round_aux_sign (s s' : bool) (m e : Z) (l : location) :
  SFabs (binary_round_aux prec emax s m e l)
  = SFabs (binary_round_aux prec emax s' m e l).
Proof.
  unfold binary_round_aux.
  destruct (shr_fexp prec emax m e l) as [mrs e1].
  destruct (shr_fexp prec emax _ e1 loc_Exact) as [mrs2 e2].
  destruct (shr_m mrs2); try reflexivity.
  destruct (Z.leb e2 (emax - prec)); reflexivity.
Qed.

Lemma SFabs_normalize_opp (m e : Z) :
  SFabs (binary_normalize prec emax (- m) e false)
  = SFabs (binary_normalize prec emax m e false).
Proof.
  destruct m as [|p|p]; simpl; try reflexivity;
    unfold binary_round;
    destruct (shl_align p e _) as [mz ez]; apply SFabs_round_aux_sign.
Qed.

Lemma SFadd_comm (x y : spec_float) : SF64add x y = SF64add y x.
Proof.
  unfold SF64add, SFadd.
  destruct x as [sx|sx| |sx mx ex], y as [sy|sy| |sy my ey];
    try reflexivity; try (destruct sx, sy; reflexivity).
  rewrite (Z.min_comm ey ex), Z.add_comm. reflexivity.
Qed.

Lemma SFabs_sub_comm (x y : spec_float) :
  SFabs (SF64sub x y) = SFabs (SF64sub y x).
Proof.
  unfold SF64sub, SFsub.
  destruct x as [sx|sx| |sx mx ex], y as [sy|sy| |sy my ey];
    try reflexivity; try (destruct sx, sy; reflexivity).
  rewrite (Z.min_comm ey ex), <- SFabs_normalize_opp.
  f_equal. f_equal. lia.
Qed.

(** [a + b] and [b + a] are the same number. *)
Lemma add_comm (a b : float) : a + b = b + a.
Proof. apply Prim2SF_inj. rewrite !add_spec. apply SFadd_comm. Qed.

(** [Math.abs(a - b)] and [Math.abs(b - a)] are the same number. *)
Lemma abs_sub_comm (a b : float) : abs (a - b) = abs (b - a).
Proof. apply Prim2SF_inj. rewrite !abs_spec, !sub_spec. apply SFabs_sub_comm. Qed.

(** *** Rounding a mantissa that already fits *)

Lemma div_eucl_exact (q b : Z) : (0 < b)%Z -> Z.div_eucl (q * b) b = (q, 0%Z).
Proof.
  intros Hb.
  rewrite (surjective_pairing (Z.div_eucl (q * b) b)).
  change (fst (Z.div_eucl (q * b) b)) with (q * b / b)%Z.
  change (snd (Z.div_eucl (q * b) b)) with ((q * b) mod b)%Z.
  rewrite Z.div_mul, Z.mod_mul by lia. reflexivity.
Qed.

(** A mantissa of 53 digits at an exponent in range is kept as it is. *)
Lemma round_aux_exact (s : bool) (m : positive) (e : Z) :
  digits2_pos m = 53%positive -> (-1074 <= e <= 971)%Z ->
  binary_round_aux prec emax s (Z.pos m) e loc_Exact = S754_finite s m e.
Proof.
  intros Hd He.
  unfold binary_round_aux, shr_fexp. cbn [Zdigits2]. rewrite Hd.
  replace (fexp prec emax (53 + e) - e)%Z with 0%Z
    by (unfold fexp, SpecFloat.emin, prec, emax; lia).
  cbn [shr shr_record_of_loc shr_m loc_of_shr_record round_nearest_even Zdigits2].
  rewrite Hd.
  replace (fexp prec emax (53 + e) - e)%Z with 0%Z
    by (unfold fexp, SpecFloat.emin, prec, emax; lia).
  cbn [shr shr_record_of_loc shr_m].
  replace (e <=? emax - prec)%Z with true
    by (symmetry; apply Z.leb_le; unfold prec, emax; lia).
  reflexivity.
Qed.

(** One trailing zero bit is shifted out without loss. *)
Lemma round_aux_shift1 (s : bool) (m : positive) (e : Z) :
  digits2_pos m = 53%positive -> (-1075 <= e <= 970)%Z ->
  binary_round_aux prec emax s (Z.pos m~0) e loc_Exact = S754_finite s m (e + 1).
Proof.
  intros Hd He.
  unfold binary_round_aux, shr_fexp. cbn [Zdigits2 digits2_pos]. rewrite Hd.
  replace (fexp prec emax (Z.pos (Pos.succ 53) + e) - e)%Z with 1%Z
    by (unfold fexp, SpecFloat.emin, prec, emax; lia).
  cbn [shr shr_record_of_loc iter_pos shr_1 orb shr_m loc_of_shr_record
       round_nearest_even Zdigits2].
  rewrite Hd.
  replace (fexp prec emax (53 + (e + 1)) - (e + 1))%Z with 0%Z
    by (unfold fexp, SpecFloat.emin, prec, emax; lia).
  cbn [shr shr_record_of_loc shr_m].
  replace (e + 1 <=? emax - prec)%Z with true
    by (symmetry; apply Z.leb_le; unfold prec, emax; lia).
  reflexivity.
Qed.

(** So are the 52 trailing zero bits of a product by the mantissa of 4. *)
Lemma round_aux_shift52 (s : bool) (m : positive) (e : Z) :
  digits2_pos m = 53%positive -> (-1126 <= e <= 919)%Z ->
  binary_round_aux prec emax s (Z.pos (m * 4503599627370496)) e loc_Exact
  = S754_finite s m (e + 52).
Proof.
  intros Hd He.
  rewrite !Pos.mul_xO_r, Pos.mul_1_r.
  unfold binary_round_aux, shr_fexp. cbn [Zdigits2 digits2_pos]. rewrite Hd.
  match goal with
  | |- context [Z.pos ?p] =>
      match p with
      | Pos.succ _ => let v := eval vm_compute in p in change p with v
      end
  end.
  replace (fexp prec emax (105 + e) - e)%Z with 52%Z
    by (unfold fexp, SpecFloat.emin, prec, emax; lia).
  cbn [shr shr_record_of_loc iter_pos shr_1 orb shr_m loc_of_shr_record
       round_nearest_even Zdigits2].
  rewrite Hd.
  replace (fexp prec emax (53 + (e + 52)) - (e + 52))%Z with 0%Z
    by (unfold fexp, SpecFloat.emin, prec, emax; lia).
  cbn [shr shr_record_of_loc shr_m].
  replace (e + 52 <=? emax - prec)%Z with true
    by (symmetry; apply Z.leb_le; unfold prec, emax; lia).
  reflexivity.
Qed.

(** *** Dividing and multiplying by 4 *)

Lemma Prim2SF_four : Prim2SF 4 = four_SF.
Proof. vm_compute. reflexivity. Qed.

(** The quarter of a normal number whose exponent leaves room for it has
    the same mantissa. *)
Lemma SFdiv_four (s : bool) (m : positive) (e : Z) :
  digits2_pos m = 53%positive -> (-1072 <= e <= 971)%Z ->
  SF64div (S754_finite s m e) four_SF = S754_finite s m (e - 2).
Proof.
  intros Hd He.
  unfold SF64div, SFdiv, four_SF, SFdiv_core_binary.
  cbn [Zdigits2]. rewrite Hd.
  assert (He' : IntDef.Z.min
            (fexp prec emax (53 + e - (Z.pos (digits2_pos 4503599627370496) + -50)))
            (e - -50) = Z.max (e - 3) (-1074)).
  { unfold fexp, SpecFloat.emin, prec, emax.
    change (digits2_pos 4503599627370496) with 53%positive. lia. }
  rewrite He'. clear He'.
  rewrite xorb_false_r.
  destruct (Z.eq_dec e (-1072)) as [->|Hne].
  - change (Z.max (-1072 - 3) (-1074)) with (-1074)%Z.
    change (-1072 - -50 - -1074)%Z with 52%Z. cbv iota.
    rewrite Z.shiftl_mul_pow2 by lia.
    change (2 ^ 52)%Z with 4503599627370496%Z.
    rewrite div_eucl_exact by lia.
    change (new_location 4503599627370496 0) with loc_Exact.
    apply round_aux_exact; [exact Hd | lia].
  - rewrite Z.max_l by lia.
    replace (e - -50 - (e - 3))%Z with 53%Z by lia. cbv iota.
    rewrite Z.shiftl_mul_pow2 by lia.
    change (2 ^ 53)%Z with (2 * 4503599627370496)%Z.
    rewrite Z.mul_assoc, div_eucl_exact by lia.
    change (new_location 4503599627370496 0) with loc_Exact.
    change (Z.pos m * 2)%Z with (Z.pos (m * 2)).
    rewrite Pos.mul_comm. change (2 * m)%positive with (m~0)%positive.
    rewrite round_aux_shift1 by (assumption || lia).
    f_equal. lia.
Qed.

(** Four times a normal number that is not too large has the same
    mantissa. *)
Lemma SFmul_four (s : bool) (m : positive) (e : Z) :
  digits2_pos m = 53%positive -> (-1074 <= e <= 969)%Z ->
  SF64mul (S754_finite s m e) four_SF = S754_finite s m (e + 2).
Proof.
  intros Hd He.
  unfold SF64mul, SFmul, four_SF.
  rewrite xorb_false_r, round_aux_shift52 by (assumption || lia).
  f_equal. lia.
Qed.

(** [v / 4 * 4] is [v] for a zero of either sign. *)
Lemma roundtrip_zero (v : float) : is_zero v = true -> v / 4 * 4 = v.
Proof.
  rewrite is_zero_spec. intros Hz.
  apply Prim2SF_inj. rewrite mul_spec, div_spec, Prim2SF_four.
  destruct (Prim2SF v) as [s|s| |s m e]; try discriminate.
  destruct s; reflexivity.
Qed.

(** [v / 4 * 4] is [v] for a finite number of magnitude at least
    2^-1020. *)
Lemma roundtrip_normal (v : float) :
  is_finite v = true -> (smallestExactQuarter <=? abs v) = true -> v / 4 * 4 = v.
Proof.
  unfold is_finite. rewrite is_nan_spec, is_infinity_spec, leb_spec, abs_spec.
  change (Prim2SF smallestExactQuarter)
    with (S754_finite false 4503599627370496 (-1072)).
  intros Hf Hle.
  apply Prim2SF_inj. rewrite mul_spec, div_spec, Prim2SF_four.
  pose proof (Prim2SF_valid v) as Hv.
  destruct (Prim2SF v) as [s|s| |s m e]; try discriminate.
  apply valid_finite_inv in Hv. destruct Hv as [Hmax Hcan].
  assert (He : (-1072 <= e)%Z).
  { unfold SFleb, SFabs, SFcompare in Hle.
    destruct (Z.compare_spec (-1072) e); (lia || discriminate). }
  assert (Hd : digits2_pos m = 53%positive) by lia.
  rewrite SFdiv_four, SFmul_four by (assumption || lia).
  f_equal. lia.
Qed.

(** *** Lengths as numbers *)

Lemma digits2_pos_lower (p : positive) :
  (2 ^ (Z.pos (digits2_pos p) - 1) <= Z.pos p)%Z.
Proof.
  induction p as [p IH|p IH|]; cbn [digits2_pos].
  - rewrite Pos2Z.inj_succ.
    replace (Z.succ (Z.pos (digits2_pos p)) - 1)%Z
      with (Z.succ (Z.pos (digits2_pos p) - 1))%Z by lia.
    rewrite Z.pow_succ_r by lia. lia.
  - rewrite Pos2Z.inj_succ.
    replace (Z.succ (Z.pos (digits2_pos p)) - 1)%Z
      with (Z.succ (Z.pos (digits2_pos p) - 1))%Z by lia.
    rewrite Z.pow_succ_r by lia. lia.
  - reflexivity.
Qed.

Lemma digits2_pos_small (p : positive) :
  (Z.pos p < 2 ^ 53)%Z -> (Z.pos (digits2_pos p) <= 53)%Z.
Proof.
  intros Hp. pose proof (digits2_pos_lower p) as Hl.
  destruct (Z_le_gt_dec (Z.pos (digits2_pos p)) 53) as [H|H]; [exact H|].
  exfalso.
  assert (2 ^ 53 <= 2 ^ (Z.pos (digits2_pos p) - 1))%Z
    by (apply Z.pow_le_mono_r; lia).
  lia.
Qed.

Lemma digits2_pos_iter (p k : positive) :
  digits2_pos (Pos.iter xO p k) = (digits2_pos p + k)%positive.
Proof.
  induction k as [|k IH] using Pos.peano_ind.
  - cbn. lia.
  - rewrite Pos.iter_succ. cbn [digits2_pos]. rewrite IH. lia.
Qed.

(** A positive length below 2^53 converts to a positive finite number. *)
Lemma Prim2SF_of_nat_finite (n : nat) :
  (0 < Z.of_nat n < 2 ^ 53)%Z ->
  exists m e, Prim2SF (Js.of_nat n) = S754_finite false m e.
Proof.
  intros Hn. unfold Js.of_nat.
  rewrite of_uint63_spec, Uint63.of_Z_spec.
  rewrite Z.mod_small
    by (change Uint63.wB with (2 ^ 63)%Z; split; [lia|];
        apply Z.lt_trans with (2 ^ 53)%Z; [lia | reflexivity]).
  destruct (Z.of_nat n) as [|p|p] eqn:E; try lia.
  pose proof (digits2_pos_small p (proj2 Hn)) as Hd.
  unfold binary_normalize, binary_round, shl_align.
  replace (fexp prec emax (Z.pos (digits2_pos p) + 0) - 0)%Z
    with (Z.pos (digits2_pos p) - 53)%Z
    by (unfold fexp, SpecFloat.emin, prec, emax; lia).
  destruct (Z.pos (digits2_pos p) - 53)%Z as [|k|k] eqn:Ek; try lia.
  - rewrite round_aux_exact by lia. eauto.
  - replace (fexp prec emax (Z.pos (digits2_pos p) + 0))
      with (Z.neg k) by (unfold fexp, SpecFloat.emin, prec, emax; lia).
    rewrite round_aux_exact; [eauto | rewrite digits2_pos_iter; lia | lia].
Qed.

(** Such a length is not zero as a number. *)
Lemma of_nat_nonzero (n : nat) :
  (0 < Z.of_nat n < 2 ^ 53)%Z -> is_zero (Js.of_nat n) = false.
Proof.
  intros Hn. rewrite is_zero_spec.
  destruct (Prim2SF_of_nat_finite n Hn) as (m & e & ->). reflexivity.
Qed.

End FloatFacts.

(** ** The default layout planner *)

Import TextPositioningService.

(** C3. For a circle with three lines, [getDefaultLinePosition] puts line 0
    curved on top at y = -70 with font size 14, line 2 curved at the bottom at
    y = 70 with font size 14, and leaves line 1 straight at
    y = -40 + 1 * (100 / 2) = 10. *)
Theorem getDefaultLinePosition_circle_three :
  getDefaultLinePosition 0 3 circle
  = {| Partial.xPosition := 0; Partial.yPosition := -70;
       Partial.curved := true; Partial.curvature := top;
       Partial.fontSize := 14 |}
  /\ getDefaultLinePosition 2 3 circle
     = {| Partial.xPosition := 0; Partial.yPosition := 70;
          Partial.curved := true; Partial.curvature := bottom;
          Partial.fontSize := 14 |}
  /\ Partial.curved (getDefaultLinePosition 1 3 circle) = false
  /\ Partial.yPosition (getDefaultLinePosition 1 3 circle) = -40 + 1 * (100 / 2)
  /\ Partial.yPosition (getDefaultLinePosition 1 3 circle) = 10.
Proof.
  unfold getDefaultLinePosition.
  repeat split; vm_compute; reflexivity.
Qed.

(** ** The even distribution planner *)

Lemma distributeLine_text shape n avail sp index cy line :
  text (fst (distributeLine shape n avail sp index cy line)) = text line.
Proof.
  unfold distributeLine. cbn [fst].
  destruct (Shape_eqb shape circle && (1 <? n)%nat);
    [destruct (index =? 0)%nat; [|destruct (index =? n - 1)%nat]|];
    reflexivity.
Qed.

Lemma distributeFrom_cons shape n avail sp index cy line rest :
  distributeFrom shape n avail sp index cy (line :: rest)
  = fst (distributeLine shape n avail sp index cy line)
    :: distributeFrom shape n avail sp (S index)
         (snd (distributeLine shape n avail sp index cy line)) rest.
Proof.
  cbn [distributeFrom].
  destruct (distributeLine shape n avail sp index cy line); reflexivity.
Qed.

Lemma distributeFrom_length shape n avail sp lines :
  forall index cy,
    List.length (distributeFrom shape n avail sp index cy lines) = List.length lines.
Proof.
  induction lines as [|line rest IH]; intros index cy.
  - reflexivity.
  - rewrite distributeFrom_cons. cbn [List.length]. now rewrite IH.
Qed.

Lemma distributeFrom_text shape n avail sp lines :
  forall index cy,
    map text (distributeFrom shape n avail sp index cy lines) = map text lines.
Proof.
  induction lines as [|line rest IH]; intros index cy.
  - reflexivity.
  - rewrite distributeFrom_cons. cbn [map].
    now rewrite distributeLine_text, IH.
Qed.

Lemma distributeLines_nonempty lines shape :
  lines <> [] ->
  distributeLines lines shape
  = distributeFrom shape (List.length lines) (calculateAvailableHeight shape)
      (distributeSpacing lines shape) 0 (- calculateAvailableHeight shape / 2) lines.
Proof.
  intros H. unfold distributeLines.
  destruct lines; [congruence | reflexivity].
Qed.

Lemma distributeLines_length lines shape :
  List.length (distributeLines lines shape) = List.length lines.
Proof.
  destruct lines as [|line rest]; [reflexivity|].
  rewrite distributeLines_nonempty by discriminate.
  apply distributeFrom_length.
Qed.

Lemma distributeLines_text lines shape :
  map text (distributeLines lines shape) = map text lines.
Proof.
  destruct lines as [|line rest]; [reflexivity|].
  rewrite distributeLines_nonempty by discriminate.
  apply distributeFrom_text.
Qed.

(** C4. [distributeLines] maps the empty list to the empty list, and for
    every input it returns as many lines as it was given, with the same
    texts in the same order. *)
Theorem distributeLines_preserves_lines (shape : Shape) :
  distributeLines [] shape = []
  /\ forall lines : list StampTextLine,
       List.length (distributeLines lines shape) = List.length lines
       /\ map text (distributeLines lines shape) = map text lines.
Proof.
  split; [reflexivity|].
  intros lines. split; [apply distributeLines_length | apply distributeLines_text].
Qed.

(** What the callback does to the curvature of line [index] of a circle
    with more than one line. *)
Lemma distributeLine_circle n avail sp index cy line :
  (1 < n)%nat ->
  let l' := fst (distributeLine circle n avail sp index cy line) in
  (index = 0%nat -> curved l' = true /\ curvature l' = Some top)
  /\ (index <> 0%nat -> index = (n - 1)%nat ->
      curved l' = true /\ curvature l' = Some bottom)
  /\ (index <> 0%nat -> index <> (n - 1)%nat -> curved l' = false).
Proof.
  intros Hn. unfold distributeLine. cbn [fst Shape_eqb andb].
  apply Nat.ltb_lt in Hn. rewrite Hn.
  destruct (Nat.eqb_spec index 0) as [H0|H0];
    [|destruct (Nat.eqb_spec index (n - 1)) as [H1|H1]];
    cbn; repeat split; intros; try reflexivity; congruence.
Qed.

(** Line [k] of the output of [distributeFrom] is the callback's result at
    index [index + k]. *)
Lemma distributeFrom_nth shape n avail sp lines :
  forall index cy k l',
    nth_error (distributeFrom shape n avail sp index cy lines) k = Some l' ->
    exists cy' line,
      l' = fst (distributeLine shape n avail sp (index + k) cy' line).
Proof.
  induction lines as [|line rest IH]; intros index cy k l' H.
  - destruct k; discriminate.
  - rewrite distributeFrom_cons in H. destruct k as [|k]; cbn in H.
    + injection H as <-. exists cy, line. now rewrite Nat.add_0_r.
    + apply IH in H. destruct H as (cy' & line' & ->).
      exists cy', line'. now rewrite Nat.add_succ_r.
Qed.

(** C5. On a circle, [distributeLines] of at least two lines returns a
    first line curved along the top, a last line curved along the bottom,
    and straight lines in between. *)
Theorem distributeLines_circle_curvature (lines : list StampTextLine) :
  (2 <= List.length lines)%nat ->
  exists first middle last,
    distributeLines lines circle = first :: middle ++ [last]
    /\ curved first = true /\ curvature first = Some top
    /\ curved last = true /\ curvature last = Some bottom
    /\ Forall (fun l => curved l = false) middle.
Proof.
  intros Hlen.
  assert (Hne : lines <> []) by (destruct lines; [cbn in Hlen; lia | discriminate]).
  rewrite distributeLines_nonempty by exact Hne.
  set (n := List.length lines) in *.
  set (avail := calculateAvailableHeight circle).
  set (sp := distributeSpacing lines circle).
  pose proof (distributeFrom_length circle n avail sp lines 0 (- avail / 2)) as Hout.
  pose proof (distributeFrom_nth circle n avail sp lines 0 (- avail / 2)) as Hnth.
  fold n in Hout.
  destruct (distributeFrom circle n avail sp 0 (- avail / 2) lines)
    as [|first rest]; [cbn in Hout; lia|].
  destruct (exists_last (l := rest)) as (middle & last & ->).
  { intros ->. cbn in Hout. lia. }
  cbn [List.length] in Hout. rewrite length_app in Hout. cbn in Hout.
  assert (Hn : (1 < n)%nat) by lia.
  exists first, middle, last. split; [reflexivity|].
  assert (Hfirst : curved first = true /\ curvature first = Some top).
  { destruct (Hnth 0%nat first eq_refl) as (cy' & line & ->).
    now apply (distributeLine_circle n avail sp 0 cy' line Hn). }
  assert (Hlast : curved last = true /\ curvature last = Some bottom).
  { destruct (Hnth (S (List.length middle)) last) as (cy' & line & ->).
    - cbn. rewrite nth_error_app2, Nat.sub_diag by lia. reflexivity.
    - apply (distributeLine_circle n avail sp _ cy' line Hn); cbn; lia. }
  destruct Hfirst as [? ?], Hlast as [? ?].
  repeat split; try assumption.
  apply Forall_forall. intros x Hx.
  apply In_nth_error in Hx. destruct Hx as [k Hk].
  assert (Hk' : (k < List.length middle)%nat)
    by (apply nth_error_Some; congruence).
  destruct (Hnth (S k) x) as (cy' & line & ->).
  - cbn. rewrite nth_error_app1 by exact Hk'. exact Hk.
  - apply (distributeLine_circle n avail sp _ cy' line Hn); cbn; lia.
Qed.

(** [distributeLines_circle_curvature] on three lines. *)
Lemma distributeLines_circle_curvature_witness :
  exists first middle last,
    distributeLines
      [sampleLine "ATELIER" 0 0; sampleLine "CASABLANCA" 0 0; sampleLine "2024" 0 0]
      circle
    = first :: middle ++ [last]
    /\ curved first = true /\ curvature first = Some top
    /\ curved last = true /\ curvature last = Some bottom
    /\ Forall (fun l => curved l = false) middle.
Proof.
  apply distributeLines_circle_curvature. cbn. lia.
Defined.

(** ** The safe zone of a text box *)

Lemma isTextWithinSafeZone_empty (line : StampTextLine) (shape : Shape) :
  isTextWithinSafeZone "" line shape = true.
Proof. reflexivity. Qed.

(** An index reported by the [forEach] is at least the starting index, and
    the line it names fails the box test. *)
Lemma outsideFrom_spec shape lines :
  forall index i,
    In i (outsideFrom shape index lines) ->
    exists line,
      (index <= i)%nat
      /\ nth_error lines (i - index) = Some line
      /\ isTextWithinSafeZone (text line) line shape = false.
Proof.
  induction lines as [|line rest IH]; intros index i Hin.
  - contradiction.
  - cbn [outsideFrom] in Hin.
    destruct (isTextWithinSafeZone (text line) line shape) eqn:E; cbn in Hin.
    + apply IH in Hin. destruct Hin as (l & Hle & Hnth & Hout).
      exists l. repeat split; [lia | | exact Hout].
      replace (i - index)%nat with (S (i - S index)) by lia. exact Hnth.
    + destruct Hin as [<- | Hin].
      * exists line. rewrite Nat.sub_diag. repeat split; [lia | exact E].
      * apply IH in Hin. destruct Hin as (l & Hle & Hnth & Hout).
        exists l. repeat split; [lia | | exact Hout].
        replace (i - index)%nat with (S (i - S index)) by lia. exact Hnth.
Qed.

(** C10. A line without text is within the safe zone wherever it stands,
    and [getLinesOutsideSafeZone] never reports the index of one: every
    index it returns names a line of the input whose text is not empty. *)
Theorem empty_text_never_outside (shape : Shape) :
  (forall line : StampTextLine, isTextWithinSafeZone "" line shape = true)
  /\ (forall (lines : list StampTextLine) (i : nat),
        In i (getLinesOutsideSafeZone lines shape) ->
        exists line, nth_error lines i = Some line /\ text line <> ""%string)
  /\ (forall (lines : list StampTextLine) (i : nat) (line : StampTextLine),
        nth_error lines i = Some line -> text line = ""%string ->
        ~ In i (getLinesOutsideSafeZone lines shape)).
Proof.
  assert (Hidx : forall lines i,
             In i (getLinesOutsideSafeZone lines shape) ->
             exists line, nth_error lines i = Some line
                          /\ isTextWithinSafeZone (text line) line shape = false).
  { intros lines i Hin. unfold getLinesOutsideSafeZone in Hin.
    destruct (List.length lines =? 0)%nat; [contradiction|].
    apply outsideFrom_spec in Hin. destruct Hin as (line & _ & Hnth & Hout).
    rewrite Nat.sub_0_r in Hnth. now exists line. }
  split; [intros line; apply isTextWithinSafeZone_empty|]. split.
  - intros lines i Hin. destruct (Hidx lines i Hin) as (line & Hnth & Hout).
    exists line. split; [exact Hnth|]. intros Hempty.
    rewrite Hempty, isTextWithinSafeZone_empty in Hout. discriminate.
  - intros lines i line Hnth Hempty Hin.
    destruct (Hidx lines i Hin) as (line' & Hnth' & Hout).
    rewrite Hnth in Hnth'. injection Hnth' as <-.
    rewrite Hempty, isTextWithinSafeZone_empty in Hout. discriminate.
Qed.

(** [empty_text_never_outside] on a rectangle: the empty line far outside
    the boundary is not reported, the long line next to the edge is. *)
Lemma empty_text_never_outside_witness :
  ~ In 0%nat
      (getLinesOutsideSafeZone
         [sampleLine "" 500 500; sampleLine "CASABLANCA" 90 90] rectangle)
  /\ getLinesOutsideSafeZone
       [sampleLine "" 500 500; sampleLine "CASABLANCA" 90 90] rectangle
     = [1%nat].
Proof.
  split.
  - apply (proj2 (proj2 (empty_text_never_outside rectangle))
             [sampleLine "" 500 500; sampleLine "CASABLANCA" 90 90] 0%nat
             (sampleLine "" 500 500)); reflexivity.
  - vm_compute. reflexivity.
Defined.

(** ** The collision detector *)

(** *** A symmetric test over all pairs does not depend on the order *)

Section AnyPair.

Context {A : Type}.
Variable test : A -> A -> bool.
Hypothesis test_sym : forall a b, test a b = test b a.

Lemma existsb_Permutation (f : A -> bool) (l l' : list A) :
  Permutation l l' -> existsb f l = existsb f l'.
Proof.
  induction 1 as [|x l l' _ IH|x y l|l l' l'' _ IH1 _ IH2]; cbn.
  - reflexivity.
  - now rewrite IH.
  - destruct (f x), (f y); reflexivity.
  - now rewrite IH1.
Qed.

Lemma anyPair_Permutation (l l' : list A) :
  Permutation l l' -> anyPair test l = anyPair test l'.
Proof.
  induction 1 as [|x l l' Hp IH|x y l|l l' l'' _ IH1 _ IH2]; cbn.
  - reflexivity.
  - now rewrite IH, (existsb_Permutation (test x) l l' Hp).
  - rewrite (test_sym y x).
    destruct (test x y), (existsb (test x) l), (existsb (test y) l); reflexivity.
  - now rewrite IH1.
Qed.

End AnyPair.

(** *** The index loops visit every pair once *)

Lemma existsb_nth_shift {A : Type} (f : A -> bool) (a : A) (rest : list A) :
  forall m k,
    existsb (fun j => match nth_error (a :: rest) j with
                      | Some x => f x
                      | None => false
                      end) (seq (S k) m)
    = existsb (fun j => match nth_error rest j with
                        | Some x => f x
                        | None => false
                        end) (seq k m).
Proof.
  induction m as [|m IH]; intros k; cbn [seq existsb].
  - reflexivity.
  - now rewrite IH.
Qed.

Lemma existsb_nth_all {A : Type} (f : A -> bool) (l : list A) :
  existsb (fun j => match nth_error l j with
                    | Some x => f x
                    | None => false
                    end) (seq 0 (List.length l))
  = existsb f l.
Proof.
  induction l as [|a rest IH]; cbn [List.length seq existsb nth_error].
  - reflexivity.
  - now rewrite existsb_nth_shift, IH.
Qed.

Lemma collisionLoops_shift (a : StampTextLine) (rest : list StampTextLine) :
  forall m k,
    existsb
      (fun i =>
         match nth_error (a :: rest) i with
         | Some line1 =>
             existsb
               (fun j => match nth_error (a :: rest) j with
                         | Some line2 => linesCollide line1 line2
                         | None => false
                         end)
               (seq (i + 1) (List.length (a :: rest) - (i + 1)))
         | None => false
         end) (seq (S k) m)
    = existsb
        (fun i =>
           match nth_error rest i with
           | Some line1 =>
               existsb
                 (fun j => match nth_error rest j with
                           | Some line2 => linesCollide line1 line2
                           | None => false
                           end)
                 (seq (i + 1) (List.length rest - (i + 1)))
           | None => false
           end) (seq k m).
Proof.
  induction m as [|m IH]; intros k; cbn [seq existsb].
  - reflexivity.
  - rewrite IH. f_equal. cbn [nth_error List.length].
    destruct (nth_error rest k) as [line1|]; [|reflexivity].
    change (S k + 1)%nat with (S (k + 1)).
    rewrite Nat.sub_succ. apply existsb_nth_shift.
Qed.

Lemma collisionLoops_anyPair (lines : list StampTextLine) :
  collisionLoops lines = anyPair linesCollide lines.
Proof.
  induction lines as [|a rest IH]; [reflexivity|].
  unfold collisionLoops. cbn [anyPair].
  destruct rest as [|b rest']; [reflexivity|].
  set (rest := b :: rest') in *.
  replace (List.length (a :: rest) - 1)%nat with (S (List.length rest - 1))
    by (subst rest; cbn; lia).
  cbn [seq existsb]. rewrite collisionLoops_shift.
  fold (collisionLoops rest). rewrite IH. f_equal.
  cbn [nth_error]. change (0 + 1)%nat with 1%nat.
  replace (List.length (a :: rest) - 1)%nat with (List.length rest)
    by (cbn; lia).
  rewrite existsb_nth_shift. apply existsb_nth_all.
Qed.

Lemma detectLineCollisions_anyPair (lines : list StampTextLine) (shape : Shape) :
  detectLineCollisions lines shape = anyPair linesCollide lines.
Proof.
  unfold detectLineCollisions.
  destruct (Nat.ltb_spec (List.length lines) 2) as [H|H].
  - destruct lines as [|a [|b rest]]; [reflexivity | reflexivity | cbn in H; lia].
  - apply collisionLoops_anyPair.
Qed.

(** *** The test of a pair is symmetric *)

Lemma linesCollide_sym (line1 line2 : StampTextLine) :
  linesCollide line1 line2 = linesCollide line2 line1.
Proof.
  unfold linesCollide.
  rewrite (FloatFacts.abs_sub_comm (Js.or_else (yPosition line1) 0)),
          (FloatFacts.abs_sub_comm (Js.or_else (xPosition line1) 0)),
          (FloatFacts.add_comm (Js.or_else (fontSize line1) 16)),
          (FloatFacts.add_comm
             (Js.of_nat (String.length (text line1)) * Js.or_else (fontSize line1) 16 * 0.6)).
  reflexivity.
Qed.

(** C7. [detectLineCollisions] gives the same answer on every reordering
    of its input, for every shape. *)
Theorem detectLineCollisions_Permutation
    (lines lines' : list StampTextLine) (shape : Shape) :
  Permutation lines lines' ->
  detectLineCollisions lines shape = detectLineCollisions lines' shape.
Proof.
  intros Hp. rewrite !detectLineCollisions_anyPair.
  apply anyPair_Permutation; [exact linesCollide_sym | exact Hp].
Qed.

(** [detectLineCollisions_Permutation] on three lines, two of which
    collide, and their reversal. *)
Lemma detectLineCollisions_Permutation_witness :
  detectLineCollisions
    [sampleLine "ATELIER" 0 (-60); sampleLine "CASABLANCA" 0 0; sampleLine "MAROC" 5 10]
    circle
  = detectLineCollisions
      [sampleLine "MAROC" 5 10; sampleLine "CASABLANCA" 0 0; sampleLine "ATELIER" 0 (-60)]
      circle.
Proof.
  apply detectLineCollisions_Permutation.
  apply (Permutation_rev
           [sampleLine "ATELIER" 0 (-60); sampleLine "CASABLANCA" 0 0;
            sampleLine "MAROC" 5 10]).
Defined.

(** ** No division by zero in the even distribution planner *)

Lemma availableHeight_half_nonzero (shape : Shape) :
  is_zero (calculateAvailableHeight shape / 2) = false.
Proof. destruct shape; vm_compute; reflexivity. Qed.

Lemma checked_distributeLine shape n avail sp index cy line :
  is_zero (avail / 2) = false ->
  DistributeChecked.distributeLine shape n avail sp index cy line
  = Some (distributeLine shape n avail sp index cy line).
Proof.
  intros Hz. unfold DistributeChecked.distributeLine, distributeLine, Checked.div.
  change (is_zero 2) with false. cbn [Checked.bind]. rewrite Hz. reflexivity.
Qed.

Lemma checked_distributeFrom shape n avail sp lines :
  is_zero (avail / 2) = false ->
  forall index cy,
    DistributeChecked.distributeFrom shape n avail sp index cy lines
    = Some (distributeFrom shape n avail sp index cy lines).
Proof.
  intros Hz. induction lines as [|line rest IH]; intros index cy.
  - reflexivity.
  - cbn [DistributeChecked.distributeFrom].
    rewrite checked_distributeLine by exact Hz. cbn [Checked.bind].
    rewrite IH, distributeFrom_cons. reflexivity.
Qed.

Lemma checked_distributeSpacing lines shape :
  (Z.of_nat (List.length lines) <= maxArrayLength)%Z ->
  DistributeChecked.distributeSpacing lines shape
  = Some (distributeSpacing lines shape).
Proof.
  intros Hlen. unfold DistributeChecked.distributeSpacing, distributeSpacing.
  destruct (Nat.ltb_spec 1 (List.length lines)) as [H|H]; [|reflexivity].
  unfold Checked.div. rewrite FloatFacts.of_nat_nonzero; [reflexivity|].
  unfold maxArrayLength in Hlen. split; [lia|].
  apply Z.le_lt_trans with 4294967295%Z; [lia | reflexivity].
Qed.

(** C9. [distributeLines] never divides by zero.  On a single line the
    spacing is the constant 0 of the guard, not a quotient by
    [lineCount - 1 = 0]; and on every list a JavaScript array can hold, the
    computation with trapped divisions runs to its end and returns the list
    [distributeLines] returns, one line per input line. *)
Theorem distributeLines_never_divides_by_zero (shape : Shape) :
  (forall line : StampTextLine,
      distributeSpacing [line] shape = 0
      /\ DistributeChecked.distributeSpacing [line] shape = Some 0
      /\ DistributeChecked.distributeLines [line] shape
         = Some (distributeLines [line] shape))
  /\ (forall lines : list StampTextLine,
        (Z.of_nat (List.length lines) <= maxArrayLength)%Z ->
        DistributeChecked.distributeLines lines shape
        = Some (distributeLines lines shape)
        /\ List.length (distributeLines lines shape) = List.length lines).
Proof.
  assert (Hall : forall lines : list StampTextLine,
             (Z.of_nat (List.length lines) <= maxArrayLength)%Z ->
             DistributeChecked.distributeLines lines shape
             = Some (distributeLines lines shape)).
  { intros lines Hlen.
    unfold DistributeChecked.distributeLines, distributeLines.
    destruct (List.length lines =? 0)%nat; [reflexivity|].
    rewrite checked_distributeSpacing by exact Hlen. cbn [Checked.bind].
    unfold Checked.div. change (is_zero 2) with false. cbn [Checked.bind].
    apply checked_distributeFrom, availableHeight_half_nonzero. }
  split.
  - intros line. repeat split.
    apply Hall. cbn. unfold maxArrayLength. lia.
  - intros lines Hlen. split; [now apply Hall|].
    apply distributeLines_length.
Qed.

(** [distributeLines_never_divides_by_zero] on two lines of a square. *)
Lemma distributeLines_never_divides_by_zero_witness :
  DistributeChecked.distributeLines
    [sampleLine "ATELIER" 0 0; sampleLine "CASABLANCA" 0 0] square
  = Some (distributeLines [sampleLine "ATELIER" 0 0; sampleLine "CASABLANCA" 0 0] square)
  /\ List.length
       (distributeLines [sampleLine "ATELIER" 0 0; sampleLine "CASABLANCA" 0 0] square)
     = 2%nat.
Proof.
  apply (proj2 (distributeLines_never_divides_by_zero square)
           [sampleLine "ATELIER" 0 0; sampleLine "CASABLANCA" 0 0]).
  unfold maxArrayLength. cbn. lia.
Defined.

(** ** Enforcing the safe zone *)

Lemma Shape_eqb_not_circle (shape : Shape) :
  shape <> circle -> Shape_eqb shape circle = false.
Proof. destruct shape; [reflexivity | congruence | reflexivity]. Qed.

Lemma or_else_not_nan (x d : float) :
  is_nan d = false -> is_nan (Js.or_else x d) = false.
Proof.
  intros Hd. unfold Js.or_else, Js.toBoolean.
  destruct (is_nan x) eqn:E, (is_zero x); cbn [orb negb]; assumption.
Qed.

Lemma or_else_zero_idem (x : float) :
  Js.or_else (Js.or_else x 0) 0 = Js.or_else x 0.
Proof.
  unfold Js.or_else at 2 3.
  destruct (Js.toBoolean x) eqn:E; [|reflexivity].
  unfold Js.or_else. now rewrite E.
Qed.

(** The per-axis clamp of a rectangle or a square returns a bound or the
    coordinate itself, which then lies within the bounds. *)
Lemma clamp_cases (x : float) :
  let r := Js.min (Js.max (Js.or_else x 0) (-98)) 98 in
  r = -98 \/ r = 98
  \/ (r = Js.or_else x 0 /\ (r <? -98) = false /\ (98 <? r) = false).
Proof.
  pose proof (or_else_not_nan x 0 eq_refl) as Hnan.
  set (x0 := Js.or_else x 0) in *. cbv zeta.
  assert (Hmin : Js.min x0 98 = 98 \/ (Js.min x0 98 = x0 /\ (98 <? x0) = false)).
  { unfold Js.min. rewrite Hnan. change (is_nan 98) with false. cbn [orb].
    destruct (x0 <? 98) eqn:E3.
    - right. split; [reflexivity | now apply FloatFacts.ltb_asym].
    - destruct (98 <? x0) eqn:E4; [now left|].
      destruct (is_zero x0 && negb (get_sign x0)); [now left | now right]. }
  unfold Js.max. rewrite Hnan. change (is_nan (-98)) with false. cbn [orb].
  destruct (x0 <? -98) eqn:E1; [left; reflexivity|].
  assert (Hx0 : Js.min x0 98 = -98 \/ Js.min x0 98 = 98
                \/ (Js.min x0 98 = x0 /\ (Js.min x0 98 <? -98) = false
                    /\ (98 <? Js.min x0 98) = false)).
  { destruct Hmin as [-> | [-> Hle]]; [right; left; reflexivity|].
    right; right. repeat split; assumption. }
  destruct (-98 <? x0); [exact Hx0|].
  destruct (is_zero x0 && get_sign x0); [left; reflexivity | exact Hx0].
Qed.

Lemma clamp_inside (x : float) :
  let r := Js.min (Js.max (Js.or_else x 0) (-98)) 98 in
  Js.gtb (Js.or_else r 0) 98 = false /\ (Js.or_else r 0 <? -98) = false.
Proof.
  cbv zeta. destruct (clamp_cases x) as [-> | [-> | (Hr & Hlo & Hhi)]];
    [split; reflexivity | split; reflexivity |].
  rewrite Hr, or_else_zero_idem, <- Hr. split; assumption.
Qed.

Lemma clamp_idempotent (x : float) :
  let r := Js.min (Js.max (Js.or_else x 0) (-98)) 98 in
  Js.min (Js.max (Js.or_else r 0) (-98)) 98 = r.
Proof.
  cbv zeta. destruct (clamp_cases x) as [-> | [-> | (Hr & _)]];
    [reflexivity | reflexivity |].
  rewrite Hr at 1. rewrite or_else_zero_idem. reflexivity.
Qed.

(** X1. On a rectangle or a square a line is never outside the safe zone
    after [enforceSafeZone], whatever its coordinates were ([NaN] and the
    infinities included). *)
Theorem enforceSafeZone_box_inside (line : StampTextLine) (shape : Shape) :
  shape <> circle ->
  isOutsideSafeZone (enforceSafeZone line shape) shape = false.
Proof.
  intros Hs. unfold isOutsideSafeZone, enforceSafeZone.
  rewrite (Shape_eqb_not_circle shape Hs).
  cbn [xPosition yPosition set_xPosition set_yPosition].
  change (100 - MARGIN_PERCENT) with 98. change (- (98)) with (-98).
  destruct (clamp_inside (xPosition line)) as [-> ->].
  destruct (clamp_inside (yPosition line)) as [-> ->].
  reflexivity.
Qed.

(** [enforceSafeZone_box_inside] on a square, far outside. *)
Lemma enforceSafeZone_box_inside_witness :
  isOutsideSafeZone (enforceSafeZone (sampleLine "MAROC" 250 (-130)) square) square
  = false.
Proof.
  apply enforceSafeZone_box_inside. discriminate.
Defined.

(** X2. On a rectangle or a square [enforceSafeZone] is idempotent. *)
Theorem enforceSafeZone_box_idempotent (line : StampTextLine) (shape : Shape) :
  shape <> circle ->
  enforceSafeZone (enforceSafeZone line shape) shape = enforceSafeZone line shape.
Proof.
  intros Hs. unfold enforceSafeZone.
  rewrite (Shape_eqb_not_circle shape Hs).
  cbn [xPosition yPosition set_xPosition set_yPosition].
  change (100 - MARGIN_PERCENT) with 98. change (- (98)) with (-98).
  unfold set_yPosition, set_xPosition.
  cbn [text fontSize fontFamily bold italic alignment curved curvature
       xPosition yPosition isDragging letterSpacing textEffect].
  rewrite (clamp_idempotent (xPosition line)), (clamp_idempotent (yPosition line)).
  reflexivity.
Qed.

(** [enforceSafeZone_box_idempotent] on a rectangle. *)
Lemma enforceSafeZone_box_idempotent_witness :
  enforceSafeZone (enforceSafeZone (sampleLine "MAROC" 250 (-130)) rectangle) rectangle
  = enforceSafeZone (sampleLine "MAROC" 250 (-130)) rectangle.
Proof.
  apply enforceSafeZone_box_idempotent. discriminate.
Defined.

Lemma enforceSafeZone_circle_noop (line : StampTextLine) :
  isOutsideSafeZone line circle = false -> enforceSafeZone line circle = line.
Proof.
  unfold isOutsideSafeZone, enforceSafeZone. cbn [Shape_eqb].
  intros ->. reflexivity.
Qed.

(** X3. On a circle [enforceSafeZone] leaves a line that is not outside as
    it is; so a second application changes nothing whenever the first one
    brought the line inside. *)
Theorem enforceSafeZone_circle_settled (line : StampTextLine) :
  (isOutsideSafeZone line circle = false -> enforceSafeZone line circle = line)
  /\ (isOutsideSafeZone (enforceSafeZone line circle) circle = false ->
      enforceSafeZone (enforceSafeZone line circle) circle
      = enforceSafeZone line circle).
Proof.
  split; [apply enforceSafeZone_circle_noop|].
  intros H. now apply enforceSafeZone_circle_noop.
Qed.

(** [enforceSafeZone_circle_settled] at (80, 80), which the first
    application brings onto the boundary. *)
Lemma enforceSafeZone_circle_settled_witness :
  enforceSafeZone (enforceSafeZone (sampleLine "MAROC" 80 80) circle) circle
  = enforceSafeZone (sampleLine "MAROC" 80 80) circle.
Proof.
  apply (proj2 (enforceSafeZone_circle_settled (sampleLine "MAROC" 80 80))).
  vm_compute. reflexivity.
Defined.

(** C1. The line at (100, 50) of a circle is outside the safe zone, and it
    still is after [enforceSafeZone]: the scaled coordinates are rounded,
    and the distance computed from them, 97.17157287525383, is one unit in
    the last place above the safe radius 97.171572875253815.  The same line
    on a rectangle is brought inside. *)
Theorem enforceSafeZone_circle_still_outside :
  let line := sampleLine "CASABLANCA" 100 50 in
  isOutsideSafeZone line circle = true
  /\ xPosition (enforceSafeZone line circle) = 86.912896971856895
  /\ yPosition (enforceSafeZone line circle) = 43.456448485928448
  /\ circleSafeRadius = 97.171572875253815
  /\ distanceFromCenter (enforceSafeZone line circle) = 97.17157287525383
  /\ distanceFromCenter (enforceSafeZone line circle) = next_up circleSafeRadius
  /\ isOutsideSafeZone (enforceSafeZone line circle) circle = true
  /\ isOutsideSafeZone (enforceSafeZone line rectangle) rectangle = false.
Proof.
  cbv zeta. repeat split; vm_compute; reflexivity.
Qed.

(** C2. On the same line of a circle a second [enforceSafeZone] moves the
    position again: the first result is still outside, so it is scaled once
    more, and both coordinates become smaller. *)
Theorem enforceSafeZone_circle_moves_twice :
  let once := enforceSafeZone (sampleLine "CASABLANCA" 100 50) circle in
  let twice := enforceSafeZone once circle in
  xPosition once = 86.912896971856895
  /\ yPosition once = 43.456448485928448
  /\ xPosition twice = 86.912896971856881
  /\ yPosition twice = 43.456448485928441
  /\ (xPosition twice <? xPosition once) = true
  /\ (yPosition twice <? yPosition once) = true
  /\ Leibniz.eqb (xPosition twice) (xPosition once) = false.
Proof.
  cbv zeta. repeat split; vm_compute; reflexivity.
Qed.

(** ** Curved text on a canvas *)

(** C6. The canvas helper of the hook sweeps [Math.PI * 1.2], not
    [Math.PI * 0.8]: the arc is centred on the vertical axis and each
    character advances by [arcLength / textLength], but for the two
    characters of "AB" the first one is drawn at -(pi * 1.2) / 2 and not at
    -(pi * 0.8) / 2.  The service's routine sweeps pi / 2 on top and
    3 pi / 2 at the bottom. *)
Theorem renderCurvedText_sweep :
  let line := sampleLine "AB" 0 (-70) in
  UseStampDesigner.arcLength = Js.PI * 1.2
  /\ (UseStampDesigner.arcLength =? Js.PI * 0.8) = false
  /\ characterAngles (UseStampDesigner.renderCurvedText line 100 100 60)
     = [- UseStampDesigner.arcLength / 2;
        - UseStampDesigner.arcLength / 2 + UseStampDesigner.arcLength / 2]
  /\ characterAngles (UseStampDesigner.renderCurvedText line 100 100 60)
     = [-1.8849555921538759; 0]
  /\ - (Js.PI * 0.8) / 2 = -1.2566370614359172
  /\ CurvedText.arcLength false = Js.PI / 2
  /\ CurvedText.arcLength true = Js.PI * 3 / 2
  /\ characterAngles (CurvedText.renderCurvedText "AB" 100 100 60 line)
     = [- Js.PI / 4; - Js.PI / 4 + Js.PI / 2 / 2].
Proof.
  cbv zeta. repeat split; vm_compute; reflexivity.
Qed.

(** ** Millimetres and coordinates *)

Import SimplifiedTextEditor.

(** C8, as stated, fails at the smallest positive number, 2^-1074 (printed
    5e-324), which is finite: the round trip ends at zero.  Its
    quarter is rounded to 0, as the quarter of 0 is, so that no inverse
    conversion could tell the two apart. *)
Lemma toCoord_toMillimeters_minSubnormal :
  is_finite minSubnormal = true
  /\ toMillimeters minSubnormal = 0
  /\ toMillimeters minSubnormal = toMillimeters 0
  /\ toCoord (toMillimeters minSubnormal) = 0
  /\ (toCoord (toMillimeters minSubnormal) =? minSubnormal) = false.
Proof. repeat split; vm_compute; reflexivity. Qed.

(** C8, as amended. [toMillimeters] divides by 4 and [toCoord] multiplies
    by 4; the round trip [toCoord (toMillimeters v) == v] holds for every
    finite [v] that is zero or of magnitude at least 2^-1020, where the
    division is exact (the result is then [v] itself, bit for bit). *)
Theorem toCoord_toMillimeters_roundtrip :
  (forall coord : float, toMillimeters coord = coord / 4)
  /\ (forall mm : float, toCoord mm = mm * 4)
  /\ (forall v : float,
        is_finite v = true ->
        is_zero v || (smallestExactQuarter <=? abs v) = true ->
        toCoord (toMillimeters v) = v
        /\ (toCoord (toMillimeters v) =? v) = true).
Proof.
  split; [reflexivity|]. split; [reflexivity|].
  intros v Hfin Hrange.
  assert (Heq : toCoord (toMillimeters v) = v).
  { unfold toCoord, toMillimeters.
    apply orb_true_iff in Hrange. destruct Hrange as [Hz | Hn].
    - now apply FloatFacts.roundtrip_zero.
    - now apply FloatFacts.roundtrip_normal. }
  split; [exact Heq|]. rewrite Heq.
  apply FloatFacts.eqb_refl.
  unfold is_finite in Hfin. destruct (is_nan v); [discriminate | reflexivity].
Qed.

(** [toCoord_toMillimeters_roundtrip] at the coordinate 37.5. *)
Lemma toCoord_toMillimeters_roundtrip_witness :
  toCoord (toMillimeters 37.5) = 37.5
  /\ (toCoord (toMillimeters 37.5) =? 37.5) = true.
Proof.
  apply (proj2 (proj2 toCoord_toMillimeters_roundtrip) 37.5);
    vm_compute; reflexivity.
Defined.

(** Below 2^-1020 the round trip can fail even on a normal number: the
    predecessor of the threshold comes back changed. *)
Lemma toCoord_toMillimeters_threshold :
  is_finite (next_down smallestExactQuarter) = true
  /\ classify (next_down smallestExactQuarter) = PNormal
  /\ (toCoord (toMillimeters (next_down smallestExactQuarter))
      =? next_down smallestExactQuarter) = false.
Proof. repeat split; vm_compute; reflexivity. Qed.

(** ** Worked examples *)

(** [getSafeZone] returns the margin 2 on every side, for every shape. *)
Lemma getSafeZone_uniform (shape : Shape) :
  getSafeZone shape
  = {| zoneTop := 2; zoneRight := 2; zoneBottom := 2; zoneLeft := 2 |}.
Proof. reflexivity. Qed.

(** Example: on a rectangle with four lines every line gets the font size
    max(12, 18 - 4) = 14, whatever its index, and line 0 stands at
    y = -90 + 45 / 2 = -67.5. *)
Theorem getDefaultLinePosition_rectangle_four :
  (forall index : float,
      Partial.fontSize (getDefaultLinePosition index 4 rectangle) = 14
      /\ Partial.curved (getDefaultLinePosition index 4 rectangle) = false)
  /\ Partial.yPosition (getDefaultLinePosition 0 4 rectangle) = -67.5
  /\ Partial.yPosition (getDefaultLinePosition 1 4 rectangle) = -67.5 + 45.
Proof.
  split; [intros index; split; reflexivity|].
  split; vm_compute; reflexivity.
Qed.

(** Example: two lines of five characters and font size 16 at the same position
    collide, on every shape. *)
Theorem detectLineCollisions_same_position (shape : Shape) :
  detectLineCollisions [sampleLine "ABCDE" 0 0; sampleLine "FGHIJ" 0 0] shape = true.
Proof. vm_compute. reflexivity. Qed.

(** Example: on a circle the point (80, 80) is outside the safe zone;
    [enforceSafeZone] scales both coordinates by the same ratio to a point
    whose distance from the centre is the safe radius, and which is no
    longer outside. *)
Theorem enforceSafeZone_circle_diagonal :
  let line := sampleLine "MAROC" 80 80 in
  isOutsideSafeZone line circle = true
  /\ xPosition (enforceSafeZone line circle) = 80 * (circleSafeRadius / distanceFromCenter line)
  /\ yPosition (enforceSafeZone line circle) = 80 * (circleSafeRadius / distanceFromCenter line)
  /\ distanceFromCenter (enforceSafeZone line circle) = circleSafeRadius
  /\ isOutsideSafeZone (enforceSafeZone line circle) circle = false.
Proof. cbv zeta. repeat split; vm_compute; reflexivity. Qed.


(** * More of the code *)

(** ** The order of binary64 numbers *)

Module FloatOrder.

Lemma SFcompare_key (x y : spec_float) :
  x <> S754_nan -> y <> S754_nan ->
  (SFcompare x y = Some Lt <-> keyLt (orderKey x) (orderKey y))
  /\ (SFcompare x y = Some Gt <-> keyLt (orderKey y) (orderKey x))
  /\ (SFcompare x y = Some Eq <-> orderKey x = orderKey y).
Proof.
  intros Hx Hy. unfold keyLt.
  destruct x as [sx|sx| |sx mx ex], y as [sy|sy| |sy my ey]; try congruence;
    try (destruct sx); try (destruct sy); cbn;
    try (repeat split; intros H; try discriminate H; try lia; try (inversion H; lia); fail).
  all: change (Pos.compare_cont Eq mx my) with (Z.pos mx ?= Z.pos my)%Z.
  all: destruct (Z.compare_spec ex ey) as [He|He|He];
       destruct (Z.compare_spec (Z.pos mx) (Z.pos my)) as [Hm|Hm|Hm]; cbn;
       repeat split; intros HH; try discriminate HH; try lia; try (inversion HH; lia);
       try congruence.
Qed.

Lemma SFcompare_nan (x y : spec_float) :
  x = S754_nan \/ y = S754_nan -> SFcompare x y = None.
Proof. intros [-> | ->]; [|destruct x as [s|s| |s m e]]; reflexivity. Qed.

Lemma is_nan_false_iff (v : float) : is_nan v = false <-> Prim2SF v <> S754_nan.
Proof.
  rewrite FloatFacts.is_nan_spec.
  destruct (Prim2SF v); split; intros H; congruence.
Qed.

Lemma nan_dec (x : spec_float) : {x = S754_nan} + {x <> S754_nan}.
Proof. destruct x; (left; reflexivity) || (right; discriminate). Qed.

Lemma ltb_true_iff (a b : float) :
  (a <? b) = true
  <-> is_nan a = false /\ is_nan b = false /\ keyLt (fkey a) (fkey b).
Proof.
  rewrite ltb_spec, !is_nan_false_iff. unfold SFltb, fkey.
  destruct (nan_dec (Prim2SF a)) as [Ha|Ha];
    [rewrite SFcompare_nan by (left; exact Ha); split;
       [discriminate | intros (H & _); contradiction]|].
  destruct (nan_dec (Prim2SF b)) as [Hb|Hb];
    [rewrite SFcompare_nan by (right; exact Hb); split;
       [discriminate | intros (_ & H & _); contradiction]|].
  destruct (SFcompare_key _ _ Ha Hb) as (HLt & _ & _).
  destruct (SFcompare (Prim2SF a) (Prim2SF b)) as [[| |]|];
    (split; [intros H | intros (_ & _ & H)]);
    try discriminate; try reflexivity;
    try (repeat split; try assumption; apply HLt; reflexivity);
    try (apply HLt in H; discriminate).
Qed.

Lemma leb_true_iff (a b : float) :
  (a <=? b) = true
  <-> is_nan a = false /\ is_nan b = false /\ keyLe (fkey a) (fkey b).
Proof.
  rewrite leb_spec, !is_nan_false_iff. unfold SFleb, fkey, keyLe.
  destruct (nan_dec (Prim2SF a)) as [Ha|Ha];
    [rewrite SFcompare_nan by (left; exact Ha); split;
       [discriminate | intros (H & _); contradiction]|].
  destruct (nan_dec (Prim2SF b)) as [Hb|Hb];
    [rewrite SFcompare_nan by (right; exact Hb); split;
       [discriminate | intros (_ & H & _); contradiction]|].
  destruct (SFcompare_key _ _ Ha Hb) as (HLt & HGt & HEq).
  destruct (SFcompare (Prim2SF a) (Prim2SF b)) as [[| |]|] eqn:E.
  - split; [intros _; repeat split; try assumption; right; now apply HEq | reflexivity].
  - split; [intros _; repeat split; try assumption; left; now apply HLt | reflexivity].
  - split; [discriminate|]. intros (_ & _ & [H | H]).
    + apply HLt in H. discriminate.
    + apply HEq in H. discriminate.
  - split; [discriminate|]. intros (_ & _ & [H | H]).
    + apply HLt in H. discriminate.
    + apply HEq in H. discriminate.
Qed.

(** The order of the keys is total. *)
Lemma key_total (a b : Z * Z * Z) : keyLt a b \/ a = b \/ keyLt b a.
Proof.
  destruct a as [[a1 a2] a3], b as [[b1 b2] b3]. unfold keyLt. cbn.
  destruct (Z.lt_total a1 b1) as [H|[H|H]]; [lia| |lia].
  destruct (Z.lt_total a2 b2) as [H2|[H2|H2]]; [lia| |lia].
  destruct (Z.lt_total a3 b3) as [H3|[H3|H3]]; [lia| |lia].
  right; left. congruence.
Qed.

Lemma keyLt_irrefl (a : Z * Z * Z) : ~ keyLt a a.
Proof. unfold keyLt. lia. Qed.

Lemma keyLt_trans (a b c : Z * Z * Z) : keyLt a b -> keyLt b c -> keyLt a c.
Proof. unfold keyLt. lia. Qed.

Lemma keyLt_asym (a b : Z * Z * Z) : keyLt a b -> ~ keyLt b a.
Proof. unfold keyLt. lia. Qed.

(** Among numbers, [a < b] fails exactly when [b <= a]. *)
Lemma ltb_false_iff (a b : float) :
  is_nan a = false -> is_nan b = false ->
  ((a <? b) = false <-> (b <=? a) = true).
Proof.
  intros Ha Hb. rewrite leb_true_iff.
  destruct (a <? b) eqn:E.
  - apply ltb_true_iff in E. destruct E as (_ & _ & E).
    split; [discriminate|]. intros (_ & _ & [H | H]).
    + exfalso. exact (keyLt_asym _ _ E H).
    + rewrite H in E. exfalso. exact (keyLt_irrefl _ E).
  - split; [|reflexivity]. intros _. repeat split; try assumption.
    destruct (key_total (fkey a) (fkey b)) as [H|[H|H]].
    + exfalso. assert ((a <? b) = true) by (apply ltb_true_iff; auto). congruence.
    + right. symmetry. exact H.
    + left. exact H.
Qed.

Lemma ltb_irrefl (a : float) : (a <? a) = false.
Proof.
  destruct (a <? a) eqn:E; [|reflexivity].
  apply ltb_true_iff in E. destruct E as (_ & _ & E).
  exfalso. exact (keyLt_irrefl _ E).
Qed.

Lemma ltb_trans (a b c : float) :
  (a <? b) = true -> (b <? c) = true -> (a <? c) = true.
Proof.
  rewrite !ltb_true_iff. intros (Ha & _ & H1) (_ & Hc & H2).
  repeat split; try assumption. exact (keyLt_trans _ _ _ H1 H2).
Qed.

Lemma leb_trans (a b c : float) :
  (a <=? b) = true -> (b <=? c) = true -> (a <=? c) = true.
Proof.
  rewrite !leb_true_iff. unfold keyLe. intros (Ha & _ & H1) (_ & Hc & H2).
  repeat split; try assumption.
  destruct H1 as [H1 | ->]; destruct H2 as [H2 | <-]; auto.
  left. exact (keyLt_trans _ _ _ H1 H2).
Qed.



Lemma ltb_leb (a b : float) : (a <? b) = true -> (a <=? b) = true.
Proof.
  rewrite ltb_true_iff, leb_true_iff. intros (Ha & Hb & H).
  repeat split; try assumption. left. exact H.
Qed.

Lemma leb_not_nan (a b : float) :
  (a <=? b) = true -> is_nan a = false /\ is_nan b = false.
Proof. rewrite leb_true_iff. tauto. Qed.

Lemma leb_refl (a : float) : is_nan a = false -> (a <=? a) = true.
Proof. intros H. apply leb_true_iff. repeat split; try assumption. now right. Qed.

End FloatOrder.

(** ** [Math.min] and [Math.max] *)

Lemma ltb_nan_r (a b : float) : is_nan b = true -> (a <? b) = false.
Proof.
  intros Hb. destruct (a <? b) eqn:E; [|reflexivity].
  apply FloatOrder.ltb_true_iff in E. destruct E as (_ & E & _). congruence.
Qed.

Lemma ltb_nan_l (a b : float) : is_nan a = true -> (a <? b) = false.
Proof.
  intros Ha. destruct (a <? b) eqn:E; [|reflexivity].
  apply FloatOrder.ltb_true_iff in E. destruct E as (E & _). congruence.
Qed.

(** Neither argument is below [Math.min] of the two, nor above [Math.max]
    ([NaN] compares as false). *)
Lemma min_not_above (a b : float) :
  (a <? Js.min a b) = false /\ (b <? Js.min a b) = false.
Proof.
  unfold Js.min.
  destruct (is_nan a || is_nan b) eqn:En;
    [split; apply ltb_nan_r; reflexivity|].
  destruct (a <? b) eqn:E1;
    [split; [apply FloatOrder.ltb_irrefl | now apply FloatFacts.ltb_asym]|].
  destruct (b <? a) eqn:E2;
    [split; [exact E1 | apply FloatOrder.ltb_irrefl]|].
  destruct (is_zero a && negb (get_sign a));
    split; (apply FloatOrder.ltb_irrefl || assumption).
Qed.

Lemma max_not_below (a b : float) :
  (Js.max a b <? a) = false /\ (Js.max a b <? b) = false.
Proof.
  unfold Js.max.
  destruct (is_nan a || is_nan b) eqn:En;
    [split; apply ltb_nan_l; reflexivity|].
  destruct (a <? b) eqn:E1;
    [split; [now apply FloatFacts.ltb_asym | apply FloatOrder.ltb_irrefl]|].
  destruct (b <? a) eqn:E2;
    [split; [apply FloatOrder.ltb_irrefl | exact E1]|].
  destruct (is_zero a && get_sign a);
    split; (apply FloatOrder.ltb_irrefl || assumption).
Qed.



(** ** The safe zone of a rectangle or a square *)

(** [x || 0] of a number is [x] again under [|| 0]. *)
Lemma or_else_truthy (x d : float) :
  Js.toBoolean x = true -> Js.or_else x d = x.
Proof. intros H. unfold Js.or_else. now rewrite H. Qed.

(** X4. On a rectangle or a square, [isOutsideSafeZone] is false exactly
    when both coordinates, a missing one read as 0, lie between -98 and
    98. *)
Theorem isOutsideSafeZone_box_iff (line : StampTextLine) (shape : Shape) :
  shape <> circle ->
  (isOutsideSafeZone line shape = false
   <-> (-98 <=? Js.or_else (xPosition line) 0) = true
       /\ (Js.or_else (xPosition line) 0 <=? 98) = true
       /\ (-98 <=? Js.or_else (yPosition line) 0) = true
       /\ (Js.or_else (yPosition line) 0 <=? 98) = true).
Proof.
  intros Hs. unfold isOutsideSafeZone, Js.gtb.
  rewrite (Shape_eqb_not_circle shape Hs).
  change (100 - MARGIN_PERCENT) with 98. change (- (98)) with (-98).
  pose proof (or_else_not_nan (xPosition line) 0 eq_refl) as Hx.
  pose proof (or_else_not_nan (yPosition line) 0 eq_refl) as Hy.
  set (x := Js.or_else (xPosition line) 0) in *.
  set (y := Js.or_else (yPosition line) 0) in *.
  rewrite <- (FloatOrder.ltb_false_iff x (-98) Hx eq_refl),
          <- (FloatOrder.ltb_false_iff 98 x eq_refl Hx),
          <- (FloatOrder.ltb_false_iff y (-98) Hy eq_refl),
          <- (FloatOrder.ltb_false_iff 98 y eq_refl Hy).
  rewrite !orb_false_iff. tauto.
Qed.

(** [isOutsideSafeZone_box_iff] on a square, at (98, -98). *)
Lemma isOutsideSafeZone_box_iff_witness :
  isOutsideSafeZone (sampleLine "MAROC" 98 (-98)) square = false
  <-> (-98 <=? Js.or_else (xPosition (sampleLine "MAROC" 98 (-98))) 0) = true
      /\ (Js.or_else (xPosition (sampleLine "MAROC" 98 (-98))) 0 <=? 98) = true
      /\ (-98 <=? Js.or_else (yPosition (sampleLine "MAROC" 98 (-98))) 0) = true
      /\ (Js.or_else (yPosition (sampleLine "MAROC" 98 (-98))) 0 <=? 98) = true.
Proof.
  apply isOutsideSafeZone_box_iff. discriminate.
Defined.

(** X5. [enforceSafeZone] changes nothing but the position of a line, on
    every shape. *)
Theorem enforceSafeZone_frame (line : StampTextLine) (shape : Shape) :
  sameButPosition (enforceSafeZone line shape) line.
Proof.
  unfold sameButPosition, enforceSafeZone.
  destruct (Shape_eqb shape circle); [|reflexivity].
  destruct (Js.gtb _ _); reflexivity.
Qed.

Lemma distributeFrom_square n avail sp lines :
  forall index cy,
    distributeFrom square n avail sp index cy lines
    = distributeFrom rectangle n avail sp index cy lines.
Proof.
  induction lines as [|line rest IH]; intros index cy; [reflexivity|].
  rewrite !distributeFrom_cons, IH. reflexivity.
Qed.

Lemma outsideFrom_square lines :
  forall index, outsideFrom square index lines = outsideFrom rectangle index lines.
Proof.
  induction lines as [|line rest IH]; intros index; [reflexivity|].
  cbn [outsideFrom]. now rewrite IH.
Qed.

(** X6. A square is handled as a rectangle is, by every operation of the
    service that takes a shape. *)
Theorem square_as_rectangle :
  (forall index totalLines,
      getDefaultLinePosition index totalLines square
      = getDefaultLinePosition index totalLines rectangle)
  /\ (forall lines, distributeLines lines square = distributeLines lines rectangle)
  /\ (forall line, enforceSafeZone line square = enforceSafeZone line rectangle)
  /\ (forall line, isOutsideSafeZone line square = isOutsideSafeZone line rectangle)
  /\ (forall text line,
        isTextWithinSafeZone text line square = isTextWithinSafeZone text line rectangle)
  /\ (forall lines,
        getLinesOutsideSafeZone lines square = getLinesOutsideSafeZone lines rectangle)
  /\ calculateAvailableHeight square = calculateAvailableHeight rectangle.
Proof.
  repeat split; try reflexivity.
  - intros lines. unfold distributeLines.
    destruct (List.length lines =? 0)%nat; [reflexivity|].
    apply distributeFrom_square.
  - intros lines. unfold getLinesOutsideSafeZone.
    destruct (List.length lines =? 0)%nat; [reflexivity|].
    apply outsideFrom_square.
Qed.

(** ** More on the even distribution planner *)

Lemma sameButY_fields (a b : StampTextLine) :
  sameButY a b ->
  fontSize a = fontSize b /\ curved a = curved b /\ curvature a = curvature b
  /\ forall v, set_yPosition v a = set_yPosition v b.
Proof.
  unfold sameButY. intros H.
  pose proof (f_equal fontSize H) as H1.
  pose proof (f_equal curved H) as H2.
  pose proof (f_equal curvature H) as H3.
  repeat split; try assumption.
  intros v.
  change (set_yPosition v a) with (set_yPosition v (set_yPosition 0 a)).
  now rewrite H.
Qed.

(** The callback gives the same result on two lines that differ in
    [yPosition] only. *)
Lemma distributeLine_sameButY shape n avail sp index cy a b :
  sameButY a b ->
  distributeLine shape n avail sp index cy a
  = distributeLine shape n avail sp index cy b.
Proof.
  intros H. destruct (sameButY_fields a b H) as (Hf & _ & _ & Hy).
  unfold distributeLine. rewrite Hf. f_equal.
  destruct (Shape_eqb shape circle && (1 <? n)%nat);
    [destruct (index =? 0)%nat; [|destruct (index =? n - 1)%nat]|].
  - change (set_yPosition ?v (set_curvature top (set_curved true ?l)))
      with (set_curvature top (set_curved true (set_yPosition v l))).
    now rewrite Hy.
  - change (set_yPosition ?v (set_curvature bottom (set_curved true ?l)))
      with (set_curvature bottom (set_curved true (set_yPosition v l))).
    now rewrite Hy.
  - change (set_yPosition ?v (set_curved false ?l))
      with (set_curved false (set_yPosition v l)).
    now rewrite Hy.
  - apply Hy.
Qed.

Lemma distributeFrom_sameButY shape n avail sp lines lines' :
  Forall2 sameButY lines lines' ->
  forall index cy,
    distributeFrom shape n avail sp index cy lines
    = distributeFrom shape n avail sp index cy lines'.
Proof.
  induction 1 as [|a b rest rest' Hab _ IH]; intros index cy; [reflexivity|].
  rewrite !distributeFrom_cons, (distributeLine_sameButY _ _ _ _ _ _ a b Hab), IH.
  reflexivity.
Qed.

Lemma totalTextHeight_fontSizes lines lines' :
  map fontSize lines = map fontSize lines' ->
  totalTextHeight lines = totalTextHeight lines'.
Proof.
  unfold totalTextHeight. generalize 0.
  revert lines'. induction lines as [|a rest IH]; intros [|b rest'] acc H;
    try discriminate; [reflexivity|].
  cbn in H. injection H as Hf Hrest. cbn [fold_left]. rewrite Hf. now apply IH.
Qed.

Lemma Forall2_sameButY_fontSizes lines lines' :
  Forall2 sameButY lines lines' -> map fontSize lines = map fontSize lines'.
Proof.
  induction 1 as [|a b rest rest' Hab _ IH]; [reflexivity|].
  cbn. rewrite IH. f_equal. now apply sameButY_fields.
Qed.

Lemma distributeSpacing_fontSizes lines lines' shape :
  map fontSize lines = map fontSize lines' ->
  distributeSpacing lines shape = distributeSpacing lines' shape.
Proof.
  intros H. unfold distributeSpacing.
  assert (Hlen : List.length lines = List.length lines')
    by (rewrite <- (length_map fontSize lines), H; apply length_map).
  now rewrite Hlen, (totalTextHeight_fontSizes lines lines' H).
Qed.

(** X7. [distributeLines] does not read the vertical positions it
    replaces: two lists whose lines differ in [yPosition] only are
    distributed to the same result. *)
Theorem distributeLines_ignores_yPosition
    (lines lines' : list StampTextLine) (shape : Shape) :
  Forall2 sameButY lines lines' ->
  distributeLines lines shape = distributeLines lines' shape.
Proof.
  intros H. unfold distributeLines.
  pose proof (Forall2_length H) as Hlen.
  rewrite <- Hlen,
    <- (distributeSpacing_fontSizes lines lines' shape (Forall2_sameButY_fontSizes _ _ H)).
  destruct (List.length lines =? 0)%nat; [reflexivity|].
  now apply distributeFrom_sameButY.
Qed.

(** [distributeLines_ignores_yPosition] on two lines, moved. *)
Lemma distributeLines_ignores_yPosition_witness :
  distributeLines [sampleLine "ATELIER" 0 0; sampleLine "MAROC" 5 10] circle
  = distributeLines [sampleLine "ATELIER" 0 80; sampleLine "MAROC" 5 (-12.5)] circle.
Proof.
  apply distributeLines_ignores_yPosition.
  repeat constructor.
Defined.

Lemma distributeLine_fontSize shape n avail sp index cy line :
  fontSize (fst (distributeLine shape n avail sp index cy line)) = fontSize line.
Proof.
  unfold distributeLine. cbn [fst].
  destruct (Shape_eqb shape circle && (1 <? n)%nat);
    [destruct (index =? 0)%nat; [|destruct (index =? n - 1)%nat]|];
    reflexivity.
Qed.

Lemma distributeLine_again shape n avail sp index cy line :
  distributeLine shape n avail sp index cy
    (fst (distributeLine shape n avail sp index cy line))
  = distributeLine shape n avail sp index cy line.
Proof.
  unfold distributeLine. cbn [fst].
  destruct (Shape_eqb shape circle && (1 <? n)%nat);
    [destruct (index =? 0)%nat; [|destruct (index =? n - 1)%nat]|];
    reflexivity.
Qed.

Lemma distributeFrom_again shape n avail sp lines :
  forall index cy,
    distributeFrom shape n avail sp index cy
      (distributeFrom shape n avail sp index cy lines)
    = distributeFrom shape n avail sp index cy lines.
Proof.
  induction lines as [|line rest IH]; intros index cy; [reflexivity|].
  rewrite (distributeFrom_cons _ _ _ _ _ _ line rest).
  rewrite distributeFrom_cons, distributeLine_again, IH. reflexivity.
Qed.

Lemma distributeFrom_fontSizes shape n avail sp lines :
  forall index cy,
    map fontSize (distributeFrom shape n avail sp index cy lines) = map fontSize lines.
Proof.
  induction lines as [|line rest IH]; intros index cy; [reflexivity|].
  rewrite distributeFrom_cons. cbn [map]. now rewrite distributeLine_fontSize, IH.
Qed.

(** X8. [distributeLines] is idempotent: distributing a distributed list
    again returns it unchanged, on every shape. *)
Theorem distributeLines_idempotent (lines : list StampTextLine) (shape : Shape) :
  distributeLines (distributeLines lines shape) shape = distributeLines lines shape.
Proof.
  destruct lines as [|line rest]; [reflexivity|].
  set (lines := line :: rest).
  assert (Hne : lines <> []) by discriminate.
  assert (Hne' : distributeLines lines shape <> []).
  { intros H. apply (f_equal (@List.length _)) in H.
    rewrite distributeLines_length in H. discriminate. }
  rewrite (distributeLines_nonempty _ shape Hne').
  rewrite distributeLines_length.
  assert (Hsp : distributeSpacing (distributeLines lines shape) shape
                = distributeSpacing lines shape).
  { apply distributeSpacing_fontSizes.
    rewrite (distributeLines_nonempty _ shape Hne). apply distributeFrom_fontSizes. }
  rewrite Hsp, (distributeLines_nonempty _ shape Hne).
  apply distributeFrom_again.
Qed.

Lemma distributeFrom_Forall2 (P : StampTextLine -> StampTextLine -> Prop)
    shape n avail sp lines :
  (forall index cy line, P (fst (distributeLine shape n avail sp index cy line)) line) ->
  forall index cy,
    Forall2 P (distributeFrom shape n avail sp index cy lines) lines.
Proof.
  intros HP. induction lines as [|line rest IH]; intros index cy; [constructor|].
  rewrite distributeFrom_cons. constructor; [apply HP | apply IH].
Qed.

(** X9. [distributeLines] leaves the text, the font, the style, the
    alignment, the horizontal position, the letter spacing and the effect
    of every line as they were; on a rectangle, a square or a single line
    it changes [yPosition] only. *)
Theorem distributeLines_frame (lines : list StampTextLine) (shape : Shape) :
  Forall2 (fun out line => sameButCurve (set_yPosition 0 out) (set_yPosition 0 line))
    (distributeLines lines shape) lines
  /\ (shape <> circle \/ (List.length lines <= 1)%nat ->
      Forall2 sameButY (distributeLines lines shape) lines).
Proof.
  destruct lines as [|line rest]; [split; [constructor | intros _; constructor]|].
  set (lines := line :: rest).
  rewrite (distributeLines_nonempty lines shape) by discriminate.
  split.
  - apply distributeFrom_Forall2. intros index cy l.
    unfold sameButCurve, distributeLine. cbn [fst].
    destruct (Shape_eqb shape circle && (1 <? List.length lines)%nat);
      [destruct (index =? 0)%nat; [|destruct (index =? List.length lines - 1)%nat]|];
      reflexivity.
  - intros H. apply distributeFrom_Forall2. intros index cy l.
    unfold sameButY, distributeLine. cbn [fst].
    replace (Shape_eqb shape circle && (1 <? List.length lines)%nat) with false;
      [reflexivity|].
    symmetry. destruct H as [H | H].
    + now rewrite (Shape_eqb_not_circle shape H).
    + apply andb_false_iff. right. apply Nat.ltb_ge. exact H.
Qed.

(** [distributeLines_frame] on a single line of a circle. *)
Lemma distributeLines_frame_witness :
  Forall2 sameButY
    (distributeLines [sampleLine "ATELIER" 12 40] circle) [sampleLine "ATELIER" 12 40].
Proof.
  apply (proj2 (distributeLines_frame [sampleLine "ATELIER" 12 40] circle)).
  right. cbn. lia.
Defined.

(** ** More on the collision detector *)

(** [anyPair] holds exactly when two positions of the list, the first
    before the second, hold a pair that passes the test. *)
Lemma anyPair_iff {A : Type} (test : A -> A -> bool) (l : list A) :
  anyPair test l = true
  <-> exists i j a b,
        (i < j)%nat /\ nth_error l i = Some a /\ nth_error l j = Some b
        /\ test a b = true.
Proof.
  induction l as [|x rest IH]; cbn [anyPair].
  - split; [discriminate|]. intros (i & j & a & b & _ & H & _). destruct i; discriminate.
  - rewrite orb_true_iff, existsb_exists, IH. split.
    + intros [(b & Hin & Ht) | (i & j & a & b & Hij & Hi & Hj & Ht)].
      * apply In_nth_error in Hin. destruct Hin as [j Hj].
        exists 0%nat, (S j), x, b. repeat split; [lia | exact Hj | exact Ht].
      * exists (S i), (S j), a, b. repeat split; [lia | exact Hi | exact Hj | exact Ht].
    + intros (i & j & a & b & Hij & Hi & Hj & Ht).
      destruct j as [|j]; [lia|]. cbn in Hj.
      destruct i as [|i].
      * cbn in Hi. injection Hi as <-. left. exists b.
        split; [eapply nth_error_In; exact Hj | exact Ht].
      * cbn in Hi. right. exists i, j, a, b. repeat split; [lia | assumption ..].
Qed.

(** X10. [detectLineCollisions] returns true exactly when two lines at
    different places of the list pass the pair test; hence a collision
    stays one when lines are added before or after. *)
Theorem detectLineCollisions_iff (lines : list StampTextLine) (shape : Shape) :
  (detectLineCollisions lines shape = true
   <-> exists i j line1 line2,
         (i < j)%nat /\ nth_error lines i = Some line1
         /\ nth_error lines j = Some line2 /\ linesCollide line1 line2 = true)
  /\ (forall before after,
        detectLineCollisions lines shape = true ->
        detectLineCollisions (before ++ lines ++ after) shape = true).
Proof.
  rewrite detectLineCollisions_anyPair. split; [apply anyPair_iff|].
  intros before after H. rewrite detectLineCollisions_anyPair.
  apply anyPair_iff in H. destruct H as (i & j & a & b & Hij & Hi & Hj & Ht).
  apply anyPair_iff.
  exists (List.length before + i)%nat, (List.length before + j)%nat, a, b.
  assert (Hlt : forall k c, nth_error lines k = Some c ->
                  nth_error (before ++ lines ++ after) (List.length before + k) = Some c).
  { intros k c Hk.
    rewrite nth_error_app2 by lia.
    replace (List.length before + k - List.length before)%nat with k by lia.
    rewrite nth_error_app1; [exact Hk|].
    apply nth_error_Some. congruence. }
  repeat split; [lia | now apply Hlt | now apply Hlt | exact Ht].
Qed.

(** [detectLineCollisions_iff]: two colliding lines, with a third one
    added in front and a fourth behind. *)
Lemma detectLineCollisions_iff_witness :
  detectLineCollisions
    ([sampleLine "ATELIER" 0 (-60)]
     ++ [sampleLine "CASABLANCA" 0 0; sampleLine "MAROC" 5 10]
     ++ [sampleLine "2024" 0 70]) rectangle
  = true.
Proof.
  apply (proj2 (detectLineCollisions_iff
                  [sampleLine "CASABLANCA" 0 0; sampleLine "MAROC" 5 10] rectangle)).
  vm_compute. reflexivity.
Defined.

(** *** Lines without text *)

Lemma zeroOrNaN_mul (a b : float) : zeroOrNaN a -> zeroOrNaN (a * b).
Proof.
  unfold zeroOrNaN. rewrite mul_spec. unfold SF64mul, SFmul.
  destruct (Prim2SF a) as [sa|sa| |sa ma ea]; try contradiction; intros _;
    destruct (Prim2SF b) as [sb|sb| |sb mb eb]; exact I.
Qed.

Lemma zeroOrNaN_div (a b : float) : zeroOrNaN a -> zeroOrNaN (a / b).
Proof.
  unfold zeroOrNaN. rewrite div_spec. unfold SF64div, SFdiv.
  destruct (Prim2SF a) as [sa|sa| |sa ma ea]; try contradiction; intros _;
    destruct (Prim2SF b) as [sb|sb| |sb mb eb]; exact I.
Qed.

Lemma zeroOrNaN_add (a b : float) : zeroOrNaN a -> zeroOrNaN b -> zeroOrNaN (a + b).
Proof.
  unfold zeroOrNaN. rewrite add_spec. unfold SF64add, SFadd.
  destruct (Prim2SF a) as [sa|sa| |sa ma ea]; try contradiction; intros _;
    destruct (Prim2SF b) as [sb|sb| |sb mb eb]; try contradiction; intros _;
    try exact I; destruct sa, sb; exact I.
Qed.

(** No magnitude is below zero, and nothing is below [NaN]. *)
Lemma abs_not_below_zero (d w : float) : zeroOrNaN w -> (abs d <? w) = false.
Proof.
  unfold zeroOrNaN. rewrite ltb_spec, abs_spec. unfold SFltb.
  destruct (Prim2SF w) as [sw|sw| |sw mw ew]; try contradiction; intros _;
    destruct (Prim2SF d) as [sd|sd| |sd md ed]; reflexivity.
Qed.

Lemma linesCollide_empty (line1 line2 : StampTextLine) :
  text line1 = ""%string -> text line2 = ""%string ->
  linesCollide line1 line2 = false.
Proof.
  intros H1 H2. unfold linesCollide. rewrite H1, H2.
  change (Js.of_nat (String.length "")) with 0.
  apply andb_false_iff. right.
  apply abs_not_below_zero, zeroOrNaN_div, zeroOrNaN_add;
    apply zeroOrNaN_mul, zeroOrNaN_mul; exact I.
Qed.

(** X11. Lines without text never collide with each other, whatever their
    positions and font sizes: a list of empty lines has no collision. *)
Theorem detectLineCollisions_empty_texts (lines : list StampTextLine) (shape : Shape) :
  Forall (fun line => text line = ""%string) lines ->
  detectLineCollisions lines shape = false.
Proof.
  intros Hall. destruct (detectLineCollisions lines shape) eqn:E; [|reflexivity].
  rewrite detectLineCollisions_anyPair in E. apply anyPair_iff in E.
  destruct E as (i & j & a & b & _ & Hi & Hj & Ht).
  rewrite Forall_forall in Hall.
  rewrite linesCollide_empty in Ht;
    [discriminate | apply Hall; eapply nth_error_In; eassumption ..].
Qed.

(** [detectLineCollisions_empty_texts] on three empty lines at one place. *)
Lemma detectLineCollisions_empty_texts_witness :
  detectLineCollisions
    [sampleLine "" 0 0; sampleLine "" 0 0; sampleLine "" 0 0] circle = false.
Proof.
  apply detectLineCollisions_empty_texts. repeat constructor.
Defined.

(** ** More on the safe zone of a text box *)

Lemma outsideFrom_complete shape lines :
  forall index k line,
    nth_error lines k = Some line ->
    isTextWithinSafeZone (text line) line shape = false ->
    In (index + k)%nat (outsideFrom shape index lines).
Proof.
  induction lines as [|l rest IH]; intros index k line Hk Hout.
  - destruct k; discriminate.
  - cbn [outsideFrom]. destruct k as [|k]; cbn in Hk.
    + injection Hk as ->. rewrite Hout, Nat.add_0_r. left. reflexivity.
    + replace (index + S k)%nat with (S index + k)%nat by lia.
      destruct (negb (isTextWithinSafeZone (text l) l shape));
        [right|]; now apply (IH (S index) k line).
Qed.

Lemma outsideFrom_lower shape lines :
  forall index i, In i (outsideFrom shape index lines) -> (index <= i)%nat.
Proof.
  intros index i H. apply outsideFrom_spec in H.
  destruct H as (_ & H & _). exact H.
Qed.

Lemma outsideFrom_sorted shape lines :
  forall index, StronglySorted lt (outsideFrom shape index lines).
Proof.
  induction lines as [|l rest IH]; intros index; [constructor|].
  cbn [outsideFrom].
  destruct (negb (isTextWithinSafeZone (text l) l shape)); [|apply IH].
  constructor; [apply IH|].
  apply Forall_forall. intros i Hi. apply outsideFrom_lower in Hi. lia.
Qed.

(** X12. [getLinesOutsideSafeZone] returns, in increasing order and each
    once, exactly the indices of the lines that fail
    [isTextWithinSafeZone]. *)
Theorem getLinesOutsideSafeZone_spec (lines : list StampTextLine) (shape : Shape) :
  (forall i,
      In i (getLinesOutsideSafeZone lines shape)
      <-> exists line,
            nth_error lines i = Some line
            /\ isTextWithinSafeZone (text line) line shape = false)
  /\ StronglySorted lt (getLinesOutsideSafeZone lines shape).
Proof.
  unfold getLinesOutsideSafeZone.
  destruct lines as [|l rest]; cbn [List.length Nat.eqb].
  - split; [|constructor]. intros i. split; [contradiction|].
    intros (line & H & _). destruct i; discriminate.
  - split; [|apply outsideFrom_sorted].
    intros i. split.
    + intros H. apply outsideFrom_spec in H. destruct H as (line & _ & Hn & Ho).
      rewrite Nat.sub_0_r in Hn. now exists line.
    + intros (line & Hn & Ho).
      apply (outsideFrom_complete shape (l :: rest) 0 i line Hn Ho).
Qed.

(** ** The radius of curved text *)

(** X13. [getCurvedTextRadius] never returns a radius above the safe
    radius [stampRadius * (1 - MARGIN_PERCENT / 100)], whatever the line
    and the stamp radius. *)
Theorem getCurvedTextRadius_safe (line : StampTextLine) (stampRadius : float) :
  Js.gtb (CurvedText.getCurvedTextRadius line stampRadius)
         (stampRadius * (1 - MARGIN_PERCENT / 100))
  = false.
Proof.
  unfold CurvedText.getCurvedTextRadius, Js.gtb. apply min_not_above.
Qed.

(** ** More on the default layout planner *)

(** X14. Whatever the index, the count and the shape,
    [getDefaultLinePosition] centres the line horizontally and gives it a
    font size that is not below 12; it curves the line only on a circle of
    at least two lines, for the first index (top, y = -70) or the last one
    (bottom, y = 70), with font size 14. *)
Theorem getDefaultLinePosition_invariants
    (index totalLines : float) (shape : Shape) :
  let p := getDefaultLinePosition index totalLines shape in
  Partial.xPosition p = 0
  /\ (Partial.fontSize p <? 12) = false
  /\ (Partial.curved p = true ->
      shape = circle /\ (2 <=? totalLines) = true
      /\ Partial.fontSize p = 14
      /\ (((index =? 0) = true
           /\ Partial.curvature p = top /\ Partial.yPosition p = -70)
          \/ ((index =? 0) = false /\ (index =? totalLines - 1) = true
              /\ Partial.curvature p = bottom /\ Partial.yPosition p = 70)))
  /\ (Partial.curved p = false -> Partial.curvature p = top).
Proof.
  cbv zeta. unfold getDefaultLinePosition, Js.geb, Js.gtb.
  destruct shape; cbn [Shape_eqb andb].
  2: destruct (2 <=? totalLines) eqn:E2;
     [destruct (index =? 0) eqn:E0;
      [|destruct (index =? totalLines - 1) eqn:E1;
        [|destruct (0 <? totalLines - 2)]]|].
  all: cbn [Partial.xPosition Partial.yPosition Partial.curved Partial.curvature
            Partial.fontSize].
  all: repeat split; try reflexivity; try discriminate; try tauto.
  all: try (intros _; left; repeat split; reflexivity).
  all: try (intros _; right; repeat split; reflexivity).
  all: destruct (3 <? totalLines); try reflexivity; apply max_not_below.
Qed.

(** [getDefaultLinePosition_invariants]: the first of three lines on a
    circle. *)
Lemma getDefaultLinePosition_invariants_witness :
  Partial.curved (getDefaultLinePosition 0 3 circle) = true
  /\ Partial.fontSize (getDefaultLinePosition 0 3 circle) = 14.
Proof.
  split; [reflexivity|].
  destruct (proj1 (proj2 (proj2 (getDefaultLinePosition_invariants 0 3 circle)))
              eq_refl) as (_ & _ & H & _).
  exact H.
Defined.

(** ** Curved text on a canvas: what is drawn, and where *)





Lemma run_app (ops1 ops2 : list CanvasOp) (ctx : Canvas.Context) :
  Canvas.run (ops1 ++ ops2) ctx = Canvas.run ops2 (Canvas.run ops1 ctx).
Proof. apply fold_left_app. Qed.

(** The loop over the characters leaves the drawing state and the stack
    of saved states as they were, and paints the characters in order. *)
Lemma run_drawCharacters isBottomText radius charAngle chars :
  forall currentAngle ctx,
    let ctx' :=
      Canvas.run (drawCharacters isBottomText radius charAngle currentAngle chars) ctx in
    Canvas.current ctx' = Canvas.current ctx
    /\ Canvas.stack ctx' = Canvas.stack ctx
    /\ paintedText ctx' = paintedText ctx ++ chars.
Proof.
  induction chars as [|c rest IH]; intros currentAngle ctx; cbv zeta.
  - cbn. now rewrite app_nil_r.
  - cbn [drawCharacters].
    rewrite !run_app.
    set (ctx1 := Canvas.run [fillText c 0 0; restore]
                   (Canvas.run (if isBottomText then [rotate Js.PI] else [])
                      (Canvas.run [save; rotate currentAngle; translate 0 (- radius)] ctx))).
    destruct (IH (currentAngle + charAngle) ctx1) as (Hc & Hs & Hp).
    rewrite Hc, Hs, Hp.
    subst ctx1. unfold paintedText.
    destruct isBottomText; cbn; rewrite ?map_app, <- ?app_assoc; auto.
Qed.

Lemma run_restore (ctx : Canvas.Context) (s : Canvas.DrawingState)
    (rest : list Canvas.DrawingState) :
  Canvas.stack ctx = s :: rest ->
  Canvas.current (Canvas.run [restore] ctx) = s
  /\ Canvas.stack (Canvas.run [restore] ctx) = rest
  /\ paintedText (Canvas.run [restore] ctx) = paintedText ctx.
Proof. intros H. cbn. rewrite H. auto. Qed.

(** A call that saves the state, changes it without painting, runs the
    loop over the characters and restores the state. *)
Lemma run_scoped (setup : list CanvasOp) isBottomText radius charAngle
    currentAngle chars (ctx : Canvas.Context) :
  Canvas.stack (Canvas.run setup ctx) = Canvas.current ctx :: Canvas.stack ctx ->
  paintedText (Canvas.run setup ctx) = paintedText ctx ->
  let ctx' :=
    Canvas.run
      (setup ++ drawCharacters isBottomText radius charAngle currentAngle chars
       ++ [restore]) ctx in
  Canvas.current ctx' = Canvas.current ctx
  /\ Canvas.stack ctx' = Canvas.stack ctx
  /\ paintedText ctx' = paintedText ctx ++ chars.
Proof.
  intros Hs Hp. cbv zeta. rewrite !run_app.
  destruct (run_drawCharacters isBottomText radius charAngle chars currentAngle
              (Canvas.run setup ctx)) as (_ & Hs' & Hp').
  rewrite Hs in Hs'. rewrite Hp in Hp'.
  destruct (run_restore _ _ _ Hs') as (H1 & H2 & H3).
  rewrite H1, H2, H3, Hp'. auto.
Qed.

(** X16. Both curved-text routines leave the canvas as they found it:
    after the call the transform, the font and the fill style are those of
    before, and so is the stack of saved states; what they add is the
    characters of the text, painted in order (nothing for an empty
    text). *)
Theorem renderCurvedText_restores
    (line : StampTextLine) (text' : string) (centerX centerY radius : float)
    (ctx : Canvas.Context) :
  let hook := Canvas.run (UseStampDesigner.renderCurvedText line centerX centerY radius) ctx in
  let service :=
    Canvas.run (CurvedText.renderCurvedText text' centerX centerY radius line) ctx in
  (Canvas.current hook = Canvas.current ctx
   /\ Canvas.stack hook = Canvas.stack ctx
   /\ paintedText hook = paintedText ctx ++ list_ascii_of_string (text line))
  /\ (Canvas.current service = Canvas.current ctx
      /\ Canvas.stack service = Canvas.stack ctx
      /\ paintedText service = paintedText ctx ++ list_ascii_of_string text').
Proof.
  cbv zeta. split.
  - unfold UseStampDesigner.renderCurvedText.
    destruct (text line) as [|c s] eqn:Et;
      [cbn; now rewrite app_nil_r|].
    cbn [String.length Nat.eqb].
    rewrite app_assoc.
    apply run_scoped; destruct (Js.gtb _ 0); reflexivity.
  - unfold CurvedText.renderCurvedText.
    destruct text' as [|c s]; [cbn; now rewrite app_nil_r|].
    cbn [String.length Nat.eqb].
    rewrite !app_assoc, <- (app_assoc _ (drawCharacters _ _ _ _ _)).
    apply run_scoped; destruct (curvature line) as [[|]|]; reflexivity.
Qed.

(** ** The hook: positions of redistributed lines *)

Lemma mapIndexFrom_length {A B : Type} (f : A -> nat -> B) (l : list A) :
  forall index, List.length (mapIndexFrom f index l) = List.length l.
Proof.
  induction l as [|a rest IH]; intros index; [reflexivity|].
  cbn. now rewrite IH.
Qed.

Lemma mapIndexFrom_nth {A B : Type} (f : A -> nat -> B) (l : list A) :
  forall index i,
    nth_error (mapIndexFrom f index l) i
    = option_map (fun a => f a (index + i)%nat) (nth_error l i).
Proof.
  induction l as [|a rest IH]; intros index i.
  - destruct i; reflexivity.
  - destruct i as [|i]; cbn.
    + now rewrite Nat.add_0_r.
    + rewrite IH. now rewrite Nat.add_succ_r.
Qed.

Lemma mapIndexFrom_Forall2 {A B : Type} (P : B -> A -> Prop) (f : A -> nat -> B)
    (l : list A) :
  (forall a index, P (f a index) a) ->
  forall index, Forall2 P (mapIndexFrom f index l) l.
Proof.
  intros HP. induction l as [|a rest IH]; intros index; constructor; auto.
Qed.

Lemma mapIndexFrom_ext {A B : Type} (R : A -> A -> Prop) (f g : A -> nat -> B)
    (l l' : list A) :
  Forall2 R l l' ->
  (forall a b index, R a b -> f a index = g b index) ->
  forall index, mapIndexFrom f index l = mapIndexFrom g index l'.
Proof.
  intros H Hfg. induction H as [|a b rest rest' Hab _ IH]; intros index;
    [reflexivity|].
  cbn. now rewrite (Hfg a b index Hab), IH.
Qed.

Lemma calculateSafePosition_defined (lineIndex totalLines : nat) :
  (lineIndex < totalLines)%nat ->
  exists y, Hook.calculateSafePosition lineIndex totalLines = Some y.
Proof.
  intros H. unfold Hook.calculateSafePosition.
  destruct totalLines as [|[|[|[|[|n]]]]]; cbn [Nat.eqb]; try lia; eauto.
  - destruct lineIndex as [|[|[|i]]]; cbn; eauto; lia.
  - destruct lineIndex as [|[|[|[|i]]]]; cbn; eauto; lia.
Qed.

(** X17. [calculateSafePosition] has a position for every index below the
    number of lines, so that [redistributeLines] never stores an undefined
    one: line [i] of its result stands at the position computed for [i],
    and the result has as many lines as the input.  For three and four
    lines an index past the last has no position. *)
Theorem redistributeLines_positions (lines : list StampTextLine) :
  List.length (Hook.redistributeLines lines) = List.length lines
  /\ (forall i line,
        nth_error (Hook.redistributeLines lines) i = Some line ->
        Hook.calculateSafePosition i (List.length lines) = Some (yPosition line))
  /\ (forall i, (3 <= i)%nat -> Hook.calculateSafePosition i 3 = None)
  /\ (forall i, (4 <= i)%nat -> Hook.calculateSafePosition i 4 = None).
Proof.
  split; [apply mapIndexFrom_length|]. split; [|split].
  - intros i line H. unfold Hook.redistributeLines in H.
    rewrite mapIndexFrom_nth in H. cbn [Nat.add] in H.
    destruct (nth_error lines i) as [l|] eqn:El; [|discriminate].
    cbn in H. injection H as <-.
    assert (Hi : (i < List.length lines)%nat) by (apply nth_error_Some; congruence).
    destruct (calculateSafePosition_defined i (List.length lines) Hi) as [y ->].
    reflexivity.
  - intros i Hi. unfold Hook.calculateSafePosition. cbn [Nat.eqb].
    apply nth_error_None. cbn. exact Hi.
  - intros i Hi. unfold Hook.calculateSafePosition. cbn [Nat.eqb].
    apply nth_error_None. cbn. exact Hi.
Qed.

(** [redistributeLines_positions]: the last of three lines stands at 30. *)
Lemma redistributeLines_positions_witness :
  Hook.calculateSafePosition 2 3 = Some 30.
Proof.
  apply (proj1 (proj2 (redistributeLines_positions
                         [sampleLine "ATELIER" 0 0; sampleLine "CASABLANCA" 0 0;
                          sampleLine "MAROC" 0 0]))
           2%nat (sampleLine "MAROC" 0 30)).
  vm_compute. reflexivity.
Defined.

Lemma redistributeLines_sameButY (lines lines' : list StampTextLine) :
  Forall2 sameButY lines lines' ->
  Hook.redistributeLines lines = Hook.redistributeLines lines'.
Proof.
  intros H. unfold Hook.redistributeLines.
  rewrite (Forall2_length H).
  apply (mapIndexFrom_ext sameButY); [exact H|].
  intros a b index Hab. now apply sameButY_fields.
Qed.

Lemma redistributeLines_output (lines : list StampTextLine) :
  Forall2 sameButY (Hook.redistributeLines lines) lines.
Proof.
  unfold Hook.redistributeLines. apply mapIndexFrom_Forall2.
  intros a index. reflexivity.
Qed.

(** X18. [redistributeLines] changes [yPosition] only, does not read the
    positions it replaces, and is idempotent. *)
Theorem redistributeLines_frame (lines : list StampTextLine) :
  Forall2 sameButY (Hook.redistributeLines lines) lines
  /\ (forall lines', Forall2 sameButY lines lines' ->
        Hook.redistributeLines lines = Hook.redistributeLines lines')
  /\ Hook.redistributeLines (Hook.redistributeLines lines) = Hook.redistributeLines lines.
Proof.
  split; [apply redistributeLines_output|].
  split; [apply redistributeLines_sameButY|].
  apply redistributeLines_sameButY, redistributeLines_output.
Qed.

(** [redistributeLines_frame] on two lines, moved. *)
Lemma redistributeLines_frame_witness :
  Hook.redistributeLines [sampleLine "ATELIER" 0 0; sampleLine "MAROC" 5 10]
  = Hook.redistributeLines [sampleLine "ATELIER" 0 80; sampleLine "MAROC" 5 (-12.5)].
Proof.
  apply (proj1 (proj2 (redistributeLines_frame
                         [sampleLine "ATELIER" 0 0; sampleLine "MAROC" 5 10]))).
  repeat constructor.
Defined.

(** *** The positions ascend *)

Lemma positionsAscend_sound (l : list (option float)) :
  positionsAscend l = true ->
  forall i j,
    (i < j)%nat -> (j < List.length l)%nat ->
    exists yi yj,
      nth_error l i = Some (Some yi) /\ nth_error l j = Some (Some yj)
      /\ (-35 <=? yi) = true /\ (yi <? yj) = true /\ (yj <=? 35) = true.
Proof.
  induction l as [|o rest IH]; intros H i j Hij Hj; [cbn in Hj; lia|].
  cbn [positionsAscend] in H. destruct o as [a|]; [|discriminate].
  apply andb_true_iff in H. destruct H as [H Hrest].
  apply andb_true_iff in H. destruct H as [H Hnext].
  apply andb_true_iff in H. destruct H as [Hlo Hhi].
  destruct j as [|j]; [lia|]. cbn [List.length] in Hj.
  destruct i as [|i].
  - (* the head against a later one *)
    destruct rest as [|[b|] rest']; [cbn in Hj; lia | | discriminate].
    destruct j as [|j].
    + exists a, b. cbn. repeat split; try assumption.
      cbn [positionsAscend] in Hrest.
      apply andb_true_iff in Hrest. destruct Hrest as [Hrest _].
      apply andb_true_iff in Hrest. destruct Hrest as [Hrest _].
      apply andb_true_iff in Hrest. tauto.
    + destruct (IH Hrest 0%nat (S j)) as (yi & yj & Hi' & Hj' & _ & Hlt & Hle);
        [lia | cbn [List.length] in *; lia|].
      cbn in Hi'. injection Hi' as <-.
      exists a, yj. cbn [nth_error]. repeat split; try assumption.
      exact (FloatOrder.ltb_trans _ _ _ Hnext Hlt).
  - destruct (IH Hrest i j) as (yi & yj & Hi' & Hj' & H1 & H2 & H3); [lia | lia|].
    exists yi, yj. cbn [nth_error]. auto.
Qed.

Lemma safePositions_nth (totalLines i : nat) :
  (i < totalLines)%nat ->
  nth_error (safePositions totalLines) i
  = Some (Hook.calculateSafePosition i totalLines).
Proof.
  intros H. unfold safePositions.
  rewrite nth_error_map, nth_error_seq.
  apply Nat.ltb_lt in H. now rewrite H.
Qed.

Lemma safePositions_checked :
  forallb (fun n => positionsAscend (safePositions n)) (seq 0 101) = true.
Proof. vm_compute. reflexivity. Qed.

(** X19. For a stamp of up to 100 lines, the positions of
    [calculateSafePosition] ascend with the index and stay between -35 and
    35: a line further down the list is placed strictly lower on the
    stamp. *)
Theorem calculateSafePosition_ascends (totalLines i j : nat) :
  (totalLines <= 100)%nat -> (i < j)%nat -> (j < totalLines)%nat ->
  exists yi yj,
    Hook.calculateSafePosition i totalLines = Some yi
    /\ Hook.calculateSafePosition j totalLines = Some yj
    /\ (-35 <=? yi) = true /\ (yi <? yj) = true /\ (yj <=? 35) = true.
Proof.
  intros Hn Hij Hj.
  pose proof safePositions_checked as Hall.
  rewrite forallb_forall in Hall.
  assert (Hin : In totalLines (seq 0 101)) by (apply in_seq; lia).
  specialize (Hall totalLines Hin).
  destruct (positionsAscend_sound _ Hall i j Hij) as (yi & yj & Hi' & Hj' & H).
  { unfold safePositions. rewrite length_map, length_seq. exact Hj. }
  rewrite safePositions_nth in Hi' by lia.
  rewrite safePositions_nth in Hj' by lia.
  exists yi, yj. split; [congruence|]. split; [congruence | exact H].
Qed.

(** [calculateSafePosition_ascends] on the second and the sixth of seven
    lines. *)
Lemma calculateSafePosition_ascends_witness :
  exists yi yj,
    Hook.calculateSafePosition 1 7 = Some yi
    /\ Hook.calculateSafePosition 5 7 = Some yj
    /\ (-35 <=? yi) = true /\ (yi <? yj) = true /\ (yj <=? 35) = true.
Proof.
  apply calculateSafePosition_ascends; lia.
Defined.

(** ** The hook: adding, removing and updating lines *)

Lemma withLines_lines (ls : list StampTextLine) (d : Design.StampDesign) :
  Design.lines (Design.withLines ls d) = ls.
Proof. reflexivity. Qed.

Lemma withLines_twice (ls ls' : list StampTextLine) (d : Design.StampDesign) :
  Design.withLines ls (Design.withLines ls' d) = Design.withLines ls d.
Proof. reflexivity. Qed.

Lemma removeIndexFrom_outside {A : Type} (l : list A) :
  forall i index,
    (index < i \/ i + Z.of_nat (List.length l) <= index)%Z ->
    removeIndexFrom i index l = l.
Proof.
  induction l as [|a rest IH]; intros i index H; [reflexivity|].
  cbn [removeIndexFrom]. cbn [List.length] in H.
  destruct (Z.eqb_spec i index) as [->|Hne]; [lia|].
  f_equal. apply IH. lia.
Qed.

Lemma removeIndexFrom_inside {A : Type} (l : list A) :
  forall i k,
    (k < List.length l)%nat ->
    removeIndexFrom i (i + Z.of_nat k) l = firstn k l ++ skipn (S k) l.
Proof.
  induction l as [|a rest IH]; intros i k H; [cbn in H; lia|].
  cbn [removeIndexFrom]. destruct k as [|k].
  - rewrite Z.add_0_r, Z.eqb_refl. cbn.
    apply removeIndexFrom_outside. lia.
  - destruct (Z.eqb_spec i (i + Z.of_nat (S k))) as [He|_]; [lia|].
    cbn [firstn skipn app]. f_equal.
    replace (i + Z.of_nat (S k))%Z with (i + 1 + Z.of_nat k)%Z by lia.
    apply IH. cbn in H. lia.
Qed.

Lemma Forall2_sameButY_texts (l l' : list StampTextLine) :
  Forall2 sameButY l l' -> map text l = map text l'.
Proof.
  induction 1 as [|a b r r' Hab _ IH]; [reflexivity|].
  cbn. rewrite IH. f_equal. exact (f_equal text Hab).
Qed.



(** X21. [removeLine] never removes the only line of a design; with two
    lines or more it removes the line at the index, keeping the others in
    order, and removes nothing for an index outside the list. *)
Theorem removeLine_spec (index : Z) (design : Design.StampDesign) :
  ((List.length (Design.lines design) <= 1)%nat ->
   Hook.removeLine index design = design)
  /\ ((2 <= List.length (Design.lines design))%nat ->
      (index < 0 \/ Z.of_nat (List.length (Design.lines design)) <= index)%Z ->
      map text (Design.lines (Hook.removeLine index design))
      = map text (Design.lines design))
  /\ ((2 <= List.length (Design.lines design))%nat ->
      (0 <= index < Z.of_nat (List.length (Design.lines design)))%Z ->
      map text (Design.lines (Hook.removeLine index design))
      = map text (firstn (Z.to_nat index) (Design.lines design)
                  ++ skipn (S (Z.to_nat index)) (Design.lines design))
      /\ S (List.length (Design.lines (Hook.removeLine index design)))
         = List.length (Design.lines design)).
Proof.
  assert (Htext : forall ls, map text (Hook.redistributeLines ls) = map text ls).
  { intros ls. apply Forall2_sameButY_texts, redistributeLines_output. }
  unfold Hook.removeLine. split; [|split].
  - intros H. apply Nat.leb_le in H. now rewrite H.
  - intros H Hout.
    replace (List.length (Design.lines design) <=? 1)%nat with false
      by (symmetry; apply Nat.leb_gt; lia).
    rewrite withLines_lines, Htext, removeIndexFrom_outside; [reflexivity | lia].
  - intros H Hin.
    replace (List.length (Design.lines design) <=? 1)%nat with false
      by (symmetry; apply Nat.leb_gt; lia).
    rewrite withLines_lines, Htext.
    assert (Hrem : removeIndexFrom 0 index (Design.lines design)
                   = firstn (Z.to_nat index) (Design.lines design)
                     ++ skipn (S (Z.to_nat index)) (Design.lines design)).
    { rewrite <- (removeIndexFrom_inside (Design.lines design) 0 (Z.to_nat index))
        by lia.
      f_equal. lia. }
    rewrite Hrem.
    split; [reflexivity|].
    rewrite (Forall2_length (redistributeLines_output _)).
    rewrite length_app, length_firstn, length_skipn. lia.
Qed.

(** [removeLine_spec]: the second of three lines. *)
Lemma removeLine_spec_witness :
  map text
    (Design.lines
       (Hook.removeLine 1
          (Design.withLines
             [sampleLine "ATELIER" 0 0; sampleLine "CASABLANCA" 0 0; sampleLine "MAROC" 0 0]
             Hook.initialDesign)))
  = ["ATELIER"; "MAROC"]%string.
Proof.
  refine (proj1 (proj2 (proj2 (removeLine_spec 1 _)) _ _)); cbn; lia.
Defined.




Lemma replaceAt_length {A : Type} (v : A) (l : list A) :
  forall i, List.length (replaceAt i v l) = List.length l.
Proof.
  induction l as [|a rest IH]; intros [|i]; cbn; try reflexivity.
  now rewrite IH.
Qed.

Lemma replaceAt_nth {A : Type} (v : A) (l : list A) :
  forall i j,
    nth_error (replaceAt i v l) j
    = if (i =? j)%nat then option_map (fun _ => v) (nth_error l j)
      else nth_error l j.
Proof.
  induction l as [|a rest IH]; intros [|i] [|j]; cbn; try reflexivity.
  - now destruct (i =? j)%nat.
  - apply IH.
Qed.

Lemma replaceAt_same {A : Type} (l : list A) :
  forall i a, nth_error l i = Some a -> replaceAt i a l = l.
Proof.
  induction l as [|x rest IH]; intros [|i] a H; cbn in *; try discriminate.
  - now injection H as ->.
  - f_equal. now apply IH.
Qed.

Lemma replaceAt_twice {A : Type} (v w : A) (l : list A) :
  forall i, replaceAt i v (replaceAt i w l) = replaceAt i v l.
Proof.
  induction l as [|x rest IH]; intros [|i]; cbn; try reflexivity.
  now rewrite IH.
Qed.

Lemma withLines_same (d : Design.StampDesign) :
  Design.withLines (Design.lines d) d = d.
Proof. destruct d; reflexivity. Qed.

Lemma mergeLine_empty (line : StampTextLine) : mergeLine line Update.empty = line.
Proof. destruct line; reflexivity. Qed.

Lemma mergeLine_twice (line : StampTextLine) (u : Update.StampTextLine) :
  mergeLine (mergeLine line u) u = mergeLine line u.
Proof.
  unfold mergeLine. cbn.
  destruct u as [t fs ff b it al cv cu xp yp dr ls te]; cbn.
  destruct t, fs, ff, b, it, al, cv, cu, xp, yp, dr, ls, te; reflexivity.
Qed.

(** An index is within the list. *)
Lemma index_in_range (index : Z) (l : list StampTextLine) :
  ((index <? 0)%Z || (Z.of_nat (List.length l) <=? index)%Z) = false ->
  exists line, nth_error l (Z.to_nat index) = Some line.
Proof.
  intros H. apply orb_false_iff in H. destruct H as [H1 H2].
  apply Z.ltb_ge in H1. apply Z.leb_gt in H2.
  destruct (nth_error l (Z.to_nat index)) as [line|] eqn:E; [eauto|].
  apply nth_error_None in E. lia.
Qed.

(** X23. [updateLine] leaves the design alone for an index outside the
    list and for an empty update; within the list it merges the update
    into the line at the index and touches no other line.  It is
    idempotent, and [updateTextPosition] is [updateLine] with the two
    coordinates. *)
Theorem updateLine_spec (index : Z) (properties : Update.StampTextLine)
    (design : Design.StampDesign) :
  ((index < 0 \/ Z.of_nat (List.length (Design.lines design)) <= index)%Z ->
   Hook.updateLine index properties design = design)
  /\ Hook.updateLine index Update.empty design = design
  /\ (forall line,
        (0 <= index)%Z ->
        nth_error (Design.lines design) (Z.to_nat index) = Some line ->
        nth_error (Design.lines (Hook.updateLine index properties design))
          (Z.to_nat index)
        = Some (mergeLine line properties)
        /\ (forall j, j <> Z.to_nat index ->
              nth_error (Design.lines (Hook.updateLine index properties design)) j
              = nth_error (Design.lines design) j))
  /\ Hook.updateLine index properties (Hook.updateLine index properties design)
     = Hook.updateLine index properties design
  /\ (forall x y,
        Hook.updateTextPosition index x y design
        = Hook.updateLine index
            {| Update.text := None; Update.fontSize := None;
               Update.fontFamily := None; Update.bold := None;
               Update.italic := None; Update.alignment := None;
               Update.curved := None; Update.curvature := None;
               Update.xPosition := Some x; Update.yPosition := Some y;
               Update.isDragging := None; Update.letterSpacing := None;
               Update.textEffect := None |} design).
Proof.
  unfold Hook.updateLine, Hook.updateTextPosition.
  split; [|split; [|split; [|split]]].
  - intros H.
    replace ((index <? 0)%Z || (Z.of_nat (List.length (Design.lines design)) <=? index)%Z)
      with true; [reflexivity|].
    symmetry. apply orb_true_iff. destruct H as [H | H];
      [left; now apply Z.ltb_lt | right; now apply Z.leb_le].
  - destruct ((index <? 0)%Z || (Z.of_nat (List.length (Design.lines design)) <=? index)%Z); [reflexivity|].
    destruct (nth_error _ _) as [line|] eqn:E; [|reflexivity].
    rewrite mergeLine_empty, (replaceAt_same _ _ _ E). apply withLines_same.
  - intros line H0 Hn.
    assert (Hlt : (Z.to_nat index < List.length (Design.lines design))%nat)
      by (apply nth_error_Some; congruence).
    replace ((index <? 0)%Z || (Z.of_nat (List.length (Design.lines design)) <=? index)%Z)
      with false
      by (symmetry; apply orb_false_iff; split; [apply Z.ltb_ge | apply Z.leb_gt]; lia).
    rewrite Hn, withLines_lines. split.
    + now rewrite replaceAt_nth, Nat.eqb_refl, Hn.
    + intros j Hj. rewrite replaceAt_nth.
      destruct (Nat.eqb_spec (Z.to_nat index) j); [congruence | reflexivity].
  - destruct ((index <? 0)%Z || (Z.of_nat (List.length (Design.lines design)) <=? index)%Z) eqn:Er.
    + now rewrite Er.
    + destruct (index_in_range _ _ Er) as [line Hn]. rewrite Hn.
      rewrite withLines_lines, replaceAt_length, Er.
      rewrite replaceAt_nth, Nat.eqb_refl, Hn. cbn [option_map].
      now rewrite withLines_twice, replaceAt_twice, mergeLine_twice.
  - intros x y. destruct ((index <? 0)%Z || (Z.of_nat (List.length (Design.lines design)) <=? index)%Z); [reflexivity|].
    destruct (nth_error _ _) as [line|]; reflexivity.
Qed.

(** [updateLine_spec]: an index past the last of two lines. *)
Lemma updateLine_spec_witness :
  Hook.updateLine 5 Update.empty
    (Design.withLines [sampleLine "ATELIER" 0 0; sampleLine "MAROC" 0 0]
       Hook.initialDesign)
  = Design.withLines [sampleLine "ATELIER" 0 0; sampleLine "MAROC" 0 0]
      Hook.initialDesign.
Proof.
  refine (proj1 (updateLine_spec 5 Update.empty _) _). cbn. lia.
Defined.

Lemma toggleCurved_curvature (position : Curvature) (line : StampTextLine) :
  curved (Hook.toggleCurved position line) = true ->
  curvature (Hook.toggleCurved position line) = Some position.
Proof.
  unfold Hook.toggleCurved.
  destruct (curved line); cbn [negb];
    [destruct (curvature line) as [[|]|], position|]; cbn; congruence.
Qed.

Lemma toggleCurved_thrice (position : Curvature) (line : StampTextLine) :
  Hook.toggleCurved position
    (Hook.toggleCurved position (Hook.toggleCurved position line))
  = Hook.toggleCurved position line.
Proof.
  unfold Hook.toggleCurved.
  destruct line as [t fs ff b it al cv cu xp yp dr ls te].
  destruct cv, cu as [[|]|], position; reflexivity.
Qed.

(** X24. [toggleCurvedText] leaves the design alone for an index outside
    the list; within it, it changes [curved] and [curvature] of the line at
    the index and nothing else, and a line that comes out curved is curved
    along the position asked for.  Three toggles with one position are
    one. *)
Theorem toggleCurvedText_spec (index : Z) (position : Curvature)
    (design : Design.StampDesign) :
  ((index < 0 \/ Z.of_nat (List.length (Design.lines design)) <= index)%Z ->
   Hook.toggleCurvedText index position design = design)
  /\ (forall line,
        (0 <= index)%Z ->
        nth_error (Design.lines design) (Z.to_nat index) = Some line ->
        exists line',
          nth_error (Design.lines (Hook.toggleCurvedText index position design))
            (Z.to_nat index) = Some line'
          /\ sameButCurve line' line
          /\ (curved line' = true -> curvature line' = Some position)
          /\ (curved line = false -> curved line' = true)
          /\ (forall j, j <> Z.to_nat index ->
                nth_error (Design.lines (Hook.toggleCurvedText index position design)) j
                = nth_error (Design.lines design) j))
  /\ Hook.toggleCurvedText index position
       (Hook.toggleCurvedText index position
          (Hook.toggleCurvedText index position design))
     = Hook.toggleCurvedText index position design.
Proof.
  unfold Hook.toggleCurvedText. split; [|split].
  - intros H.
    replace ((index <? 0)%Z || (Z.of_nat (List.length (Design.lines design)) <=? index)%Z)
      with true; [reflexivity|].
    symmetry. apply orb_true_iff. destruct H as [H | H];
      [left; now apply Z.ltb_lt | right; now apply Z.leb_le].
  - intros line H0 Hn.
    assert (Hlt : (Z.to_nat index < List.length (Design.lines design))%nat)
      by (apply nth_error_Some; congruence).
    replace ((index <? 0)%Z || (Z.of_nat (List.length (Design.lines design)) <=? index)%Z)
      with false
      by (symmetry; apply orb_false_iff; split; [apply Z.ltb_ge | apply Z.leb_gt]; lia).
    rewrite Hn, withLines_lines.
    exists (Hook.toggleCurved position line). split; [|split; [|split; [|split]]].
    + now rewrite replaceAt_nth, Nat.eqb_refl, Hn.
    + unfold sameButCurve, Hook.toggleCurved.
      destruct (curved line); cbn [negb];
        [destruct (curvature line) as [[|]|], position|]; reflexivity.
    + apply toggleCurved_curvature.
    + intros Hc. unfold Hook.toggleCurved. rewrite Hc. reflexivity.
    + intros j Hj. rewrite replaceAt_nth.
      destruct (Nat.eqb_spec (Z.to_nat index) j); [congruence | reflexivity].
  - destruct ((index <? 0)%Z || (Z.of_nat (List.length (Design.lines design)) <=? index)%Z) eqn:Er.
    + now rewrite !Er.
    + destruct (index_in_range _ _ Er) as [line Hn]. rewrite Hn.
      repeat (rewrite ?withLines_lines, ?replaceAt_length, ?Er,
                ?replaceAt_nth, ?Nat.eqb_refl, ?Hn; cbn [option_map]).
      now rewrite !withLines_twice, !replaceAt_twice, toggleCurved_thrice.
Qed.

(** [toggleCurvedText_spec]: an index past the last line. *)
Lemma toggleCurvedText_spec_witness :
  Hook.toggleCurvedText 2 bottom
    (Design.withLines [sampleLine "ATELIER" 0 0; sampleLine "MAROC" 0 0]
       Hook.initialDesign)
  = Design.withLines [sampleLine "ATELIER" 0 0; sampleLine "MAROC" 0 0]
      Hook.initialDesign.
Proof.
  refine (proj1 (toggleCurvedText_spec 2 bottom _) _). cbn. lia.
Defined.

(** ** [enforceTextBoundaries] *)








(** ** [detectTextCollisions] *)

Lemma pairLoops_shift {A : Type} (test : A -> A -> bool) (a : A) (rest : list A) :
  forall m k,
    existsb
      (fun i =>
         match nth_error (a :: rest) i with
         | Some x =>
             existsb
               (fun j => match nth_error (a :: rest) j with
                         | Some y => test x y
                         | None => false
                         end)
               (seq (i + 1) (List.length (a :: rest) - (i + 1)))
         | None => false
         end) (seq (S k) m)
    = existsb
        (fun i =>
           match nth_error rest i with
           | Some x =>
               existsb
                 (fun j => match nth_error rest j with
                           | Some y => test x y
                           | None => false
                           end)
                 (seq (i + 1) (List.length rest - (i + 1)))
           | None => false
           end) (seq k m).
Proof.
  induction m as [|m IH]; intros k; cbn [seq existsb].
  - reflexivity.
  - rewrite IH. f_equal. cbn [nth_error List.length].
    destruct (nth_error rest k) as [x|]; [|reflexivity].
    change (S k + 1)%nat with (S (k + 1)).
    rewrite Nat.sub_succ. apply existsb_nth_shift.
Qed.

(** The two loops over [i] and [j > i] visit every pair of the list. *)
Lemma pairLoops_anyPair {A : Type} (test : A -> A -> bool) (l : list A) :
  existsb
    (fun i =>
       match nth_error l i with
       | Some x =>
           existsb
             (fun j => match nth_error l j with
                       | Some y => test x y
                       | None => false
                       end)
             (seq (i + 1) (List.length l - (i + 1)))
       | None => false
       end) (seq 0 (List.length l))
  = anyPair test l.
Proof.
  induction l as [|a rest IH]; [reflexivity|].
  cbn [anyPair].
  change (seq 0 (List.length (a :: rest))) with (0%nat :: seq 1 (List.length rest)).
  cbn [existsb]. rewrite pairLoops_shift, IH. f_equal.
  cbn [nth_error]. change (0 + 1)%nat with 1%nat.
  replace (List.length (a :: rest) - 1)%nat with (List.length rest)
    by (cbn; lia).
  rewrite existsb_nth_shift. apply existsb_nth_all.
Qed.

Lemma SFmul_self_abs (x : spec_float) : SF64mul x x = SF64mul (SFabs x) (SFabs x).
Proof. destruct x as [s|s| |s m e]; try reflexivity; destruct s; reflexivity. Qed.

(** [x * x] does not depend on the sign of [x]. *)
Lemma mul_self_abs (x : float) : x * x = abs x * abs x.
Proof. apply Prim2SF_inj. rewrite !mul_spec, !abs_spec. apply SFmul_self_abs. Qed.

Lemma tooClose_sym (line1 line2 : StampTextLine) :
  Hook.tooClose line1 line2 = Hook.tooClose line2 line1.
Proof.
  unfold Hook.tooClose. rewrite (orb_comm (String.length (text line1) =? 0)%nat).
  destruct ((String.length (text line2) =? 0)%nat || _); [reflexivity|].
  cbv zeta.
  rewrite (mul_self_abs (_ (xPosition line1) 0 - _)),
          (mul_self_abs (_ (yPosition line1) 0 - _)),
          (FloatFacts.abs_sub_comm (Js.or_else (xPosition line1) 0)),
          (FloatFacts.abs_sub_comm (Js.or_else (yPosition line1) 0)),
          <- !mul_self_abs.
  reflexivity.
Qed.

Lemma tooClose_hasText (a b : StampTextLine) :
  Hook.tooClose a b = true -> hasText a = true /\ hasText b = true.
Proof.
  unfold Hook.tooClose, hasText.
  destruct (String.length (text a) =? 0)%nat, (String.length (text b) =? 0)%nat;
    cbn; intros H; try discriminate. now split.
Qed.

Lemma existsb_tooClose_filter (a : StampTextLine) (l : list StampTextLine) :
  existsb (Hook.tooClose a) (filter hasText l) = existsb (Hook.tooClose a) l.
Proof.
  induction l as [|b rest IH]; [reflexivity|]. cbn [filter existsb].
  destruct (hasText b) eqn:Eb; cbn [existsb]; rewrite IH; [reflexivity|].
  destruct (Hook.tooClose a b) eqn:Et; [|reflexivity].
  apply tooClose_hasText in Et. destruct Et. congruence.
Qed.

Lemma anyPair_tooClose_filter (l : list StampTextLine) :
  anyPair Hook.tooClose (filter hasText l) = anyPair Hook.tooClose l.
Proof.
  induction l as [|a rest IH]; [reflexivity|]. cbn [filter anyPair].
  destruct (hasText a) eqn:Ea; cbn [anyPair]; rewrite IH.
  - now rewrite existsb_tooClose_filter.
  - replace (existsb (Hook.tooClose a) rest) with false; [reflexivity|].
    symmetry. apply not_true_is_false. intros H.
    apply existsb_exists in H. destruct H as (b & _ & Hb).
    apply tooClose_hasText in Hb. destruct Hb. congruence.
Qed.

(** X26. [detectTextCollisions] returns true exactly when two lines at
    different places of the list both have a text and anchors closer than
    20.  The answer does not depend on the order of the lines, and lines
    without a text can be dropped without changing it. *)
Theorem detectTextCollisions_spec (design : Design.StampDesign) :
  (Hook.detectTextCollisions design = true
   <-> exists i j line1 line2,
         (i < j)%nat
         /\ nth_error (Design.lines design) i = Some line1
         /\ nth_error (Design.lines design) j = Some line2
         /\ hasText line1 = true /\ hasText line2 = true
         /\ (let dx := Js.or_else (xPosition line1) 0
                       - Js.or_else (xPosition line2) 0 in
             let dy := Js.or_else (yPosition line1) 0
                       - Js.or_else (yPosition line2) 0 in
             sqrt (dx * dx + dy * dy) <? 20) = true)
  /\ (forall lines',
        Permutation (Design.lines design) lines' ->
        Hook.detectTextCollisions (Design.withLines lines' design)
        = Hook.detectTextCollisions design)
  /\ Hook.detectTextCollisions
       (Design.withLines (filter hasText (Design.lines design)) design)
     = Hook.detectTextCollisions design.
Proof.
  unfold Hook.detectTextCollisions. rewrite !pairLoops_anyPair.
  split; [|split].
  - rewrite anyPair_iff. split.
    + intros (i & j & a & b & Hij & Hi & Hj & Ht).
      exists i, j, a, b. destruct (tooClose_hasText _ _ Ht) as [Ha Hb].
      repeat split; try assumption.
      unfold Hook.tooClose, hasText in *.
      destruct (String.length (text a) =? 0)%nat; [discriminate|].
      destruct (String.length (text b) =? 0)%nat; [discriminate|].
      exact Ht.
    + intros (i & j & a & b & Hij & Hi & Hj & Ha & Hb & Ht).
      exists i, j, a, b. repeat split; try assumption.
      unfold Hook.tooClose, hasText in *.
      destruct (String.length (text a) =? 0)%nat; [discriminate|].
      destruct (String.length (text b) =? 0)%nat; [discriminate|].
      exact Ht.
  - intros lines' Hp. rewrite ?withLines_lines, ?pairLoops_anyPair.
    symmetry. apply anyPair_Permutation; [exact tooClose_sym | exact Hp].
  - rewrite ?withLines_lines, ?pairLoops_anyPair. apply anyPair_tooClose_filter.
Qed.

(** [detectTextCollisions_spec]: two lines swapped. *)
Lemma detectTextCollisions_spec_witness :
  Hook.detectTextCollisions
    (Design.withLines [sampleLine "MAROC" 0 10; sampleLine "ATELIER" 0 0]
       (Design.withLines [sampleLine "ATELIER" 0 0; sampleLine "MAROC" 0 10]
          Hook.initialDesign))
  = Hook.detectTextCollisions
      (Design.withLines [sampleLine "ATELIER" 0 0; sampleLine "MAROC" 0 10]
         Hook.initialDesign).
Proof.
  refine (proj1 (proj2 (detectTextCollisions_spec
                          (Design.withLines
                             [sampleLine "ATELIER" 0 0; sampleLine "MAROC" 0 10]
                             Hook.initialDesign))) _ _).
  apply perm_swap.
Defined.

(** ** The zoom level *)

(** X27. From a level on the quarter grid between 0.75 and 2.5, where the
    zoom starts, [zoomIn] and [zoomOut] lead to such a level again; below
    the cap [zoomOut] undoes [zoomIn], and above the floor [zoomIn] undoes
    [zoomOut]. *)
Theorem zoom_levels (z : float) :
  In z zoomLevels ->
  In Hook.initialZoomLevel zoomLevels
  /\ In (Hook.zoomIn z) zoomLevels
  /\ In (Hook.zoomOut z) zoomLevels
  /\ ((z <? 2.5) = true -> Hook.zoomOut (Hook.zoomIn z) = z)
  /\ ((0.75 <? z) = true -> Hook.zoomIn (Hook.zoomOut z) = z).
Proof.
  unfold zoomLevels. cbn [In].
  intros [<- | [<- | [<- | [<- | [<- | [<- | [<- | [<- | []]]]]]]]];
    (split; [right; left; reflexivity|]);
    (split; [vm_compute; tauto|]);
    (split; [vm_compute; tauto|]);
    (split; intros H; solve [vm_compute; reflexivity | vm_compute in H; discriminate]).
Qed.

(** [zoom_levels] at the level the zoom starts with. *)
Lemma zoom_levels_witness :
  In Hook.initialZoomLevel zoomLevels
  /\ In (Hook.zoomIn 1) zoomLevels
  /\ In (Hook.zoomOut 1) zoomLevels
  /\ ((1 <? 2.5) = true -> Hook.zoomOut (Hook.zoomIn 1) = 1)
  /\ ((0.75 <? 1) = true -> Hook.zoomIn (Hook.zoomOut 1) = 1).
Proof.
  apply (zoom_levels 1). unfold zoomLevels. cbn [In]. right; left. reflexivity.
Defined.

(** ** The editors *)

Lemma in_range_test (index : Z) (l : list StampTextLine) (line : StampTextLine) :
  (0 <= index)%Z -> nth_error l (Z.to_nat index) = Some line ->
  ((index <? 0)%Z || (Z.of_nat (List.length l) <=? index)%Z) = false.
Proof.
  intros H0 Hn.
  assert (Hlt : (Z.to_nat index < List.length l)%nat)
    by (apply nth_error_Some; congruence).
  apply orb_false_iff. split; [apply Z.ltb_ge | apply Z.leb_gt]; lia.
Qed.

Lemma updateLine_in_range (index : Z) (u : Update.StampTextLine)
    (design : Design.StampDesign) (line : StampTextLine) :
  (0 <= index)%Z ->
  nth_error (Design.lines design) (Z.to_nat index) = Some line ->
  Hook.updateLine index u design
  = Design.withLines
      (replaceAt (Z.to_nat index) (mergeLine line u) (Design.lines design)) design.
Proof.
  intros H0 Hn. unfold Hook.updateLine.
  now rewrite (in_range_test _ _ _ H0 Hn), Hn.
Qed.

Lemma toggleCurvedText_in_range (index : Z) (position : Curvature)
    (design : Design.StampDesign) (line : StampTextLine) :
  (0 <= index)%Z ->
  nth_error (Design.lines design) (Z.to_nat index) = Some line ->
  Hook.toggleCurvedText index position design
  = Design.withLines
      (replaceAt (Z.to_nat index) (Hook.toggleCurved position line)
         (Design.lines design)) design.
Proof.
  intros H0 Hn. unfold Hook.toggleCurvedText.
  now rewrite (in_range_test _ _ _ H0 Hn), Hn.
Qed.

Lemma replaceAt_nth_same {A : Type} (v a : A) (l : list A) (i : nat) :
  nth_error l i = Some a -> nth_error (replaceAt i v l) i = Some v.
Proof. intros H. now rewrite replaceAt_nth, Nat.eqb_refl, H. Qed.

Lemma replaceAt_nth_other {A : Type} (v : A) (l : list A) (i j : nat) :
  j <> i -> nth_error (replaceAt i v l) j = nth_error l j.
Proof.
  intros H. rewrite replaceAt_nth.
  destruct (Nat.eqb_spec i j); [congruence | reflexivity].
Qed.

Lemma undo_updateHistory (updatedDesign : Design.StampDesign)
    (history : Enhanced.DesignHistoryState) :
  Enhanced.present (Enhanced.undo (Enhanced.updateHistory updatedDesign history))
  = Enhanced.present history
  /\ Enhanced.past (Enhanced.undo (Enhanced.updateHistory updatedDesign history))
     = Enhanced.past history.
Proof.
  unfold Enhanced.undo, Enhanced.canUndo, Enhanced.updateHistory.
  cbn [Enhanced.past Enhanced.present Enhanced.future].
  rewrite length_app. cbn [List.length].
  replace (0 <? List.length (Enhanced.past history) + 1)%nat with true
    by (symmetry; apply Nat.ltb_lt; lia).
  cbn [negb].
  replace (List.length (Enhanced.past history) + 1 - 1)%nat
    with (List.length (Enhanced.past history)) by lia.
  rewrite nth_error_app2, Nat.sub_diag by lia. cbn.
  split; [reflexivity | apply removelast_last].
Qed.

Lemma enhanced_updateLine_in_range (index : nat) (u : Update.StampTextLine)
    (history : Enhanced.DesignHistoryState) (line : StampTextLine) :
  nth_error (Design.lines (Enhanced.present history)) index = Some line ->
  Enhanced.updateLine (Z.of_nat index) u history
  = Some (Enhanced.updateHistory
            (Design.withLines
               (replaceAt index (mergeLine line u)
                  (Design.lines (Enhanced.present history)))
               (Enhanced.present history)) history).
Proof.
  intros Hn. unfold Enhanced.updateLine. cbv zeta.
  replace (Z.of_nat index <? 0)%Z with false by (symmetry; apply Z.ltb_ge; lia).
  now rewrite Nat2Z.id, Hn.
Qed.

Lemma enhanced_toggleCurvedText_in_range (index : nat) (position : Curvature)
    (history : Enhanced.DesignHistoryState) (line : StampTextLine) :
  nth_error (Design.lines (Enhanced.present history)) index = Some line ->
  Enhanced.toggleCurvedText (Z.of_nat index) position history
  = Enhanced.updateLine (Z.of_nat index)
      {| Update.text := None; Update.fontSize := None;
         Update.fontFamily := None; Update.bold := None;
         Update.italic := None; Update.alignment := None;
         Update.curved := Some (negb (curved line));
         Update.curvature := Some (if negb (curved line) then position else top);
         Update.xPosition := None; Update.yPosition := None;
         Update.isDragging := None; Update.letterSpacing := None;
         Update.textEffect := None |} history.
Proof.
  intros Hn. unfold Enhanced.toggleCurvedText. cbv zeta.
  replace (Z.of_nat index <? 0)%Z with false by (symmetry; apply Z.ltb_ge; lia).
  now rewrite Nat2Z.id, Hn.
Qed.

(** X28. Picking a text style in the select of [SimplifiedTextEditor],
    wired to [useStampDesigner], changes [curved] and [curvature] of the
    line only.  After picking ['none'], or a style other than the one
    shown, the select shows the style picked; picking again the curved
    style shown, of a line with a curvature, turns the line straight. *)
Theorem onValueChange_shown (index : nat) (value : EditorControls.TextStyle)
    (design : Design.StampDesign) (line : StampTextLine) :
  nth_error (Design.lines design) index = Some line ->
  let design' :=
    EditorControls.onValueChange Hook.updateLine Hook.toggleCurvedText
      index value design in
  exists line',
    nth_error (Design.lines design') index = Some line'
    /\ sameButCurve line' line
    /\ (value = EditorControls.straightText
        \/ value <> EditorControls.selectValue line ->
        EditorControls.selectValue line' = value)
    /\ (value = EditorControls.selectValue line ->
        curvature line <> None ->
        EditorControls.selectValue line' = EditorControls.straightText)
    /\ (forall j, j <> index ->
          nth_error (Design.lines design') j = nth_error (Design.lines design) j)
    /\ Design.withLines (Design.lines design) design' = design.
Proof.
  intros Hn. cbv zeta. unfold EditorControls.onValueChange.
  assert (H0 : (0 <= Z.of_nat index)%Z) by lia.
  assert (Hn' : nth_error (Design.lines design) (Z.to_nat (Z.of_nat index))
                = Some line) by now rewrite Nat2Z.id.
  destruct value;
    rewrite ?(updateLine_in_range _ _ _ _ H0 Hn'),
            ?(toggleCurvedText_in_range _ _ _ _ H0 Hn'), Nat2Z.id, withLines_lines;
    eexists; (split; [eapply replaceAt_nth_same; exact Hn|]);
    (split; [|split; [|split; [|split;
       [intros j Hj; now apply replaceAt_nth_other
       |rewrite withLines_twice; apply withLines_same]]]]);
    unfold sameButCurve, EditorControls.selectValue, Hook.toggleCurved, mergeLine;
    destruct line as [t fs ff b it al cv cu xp yp dr ls te];
    cbn [curved curvature set_curved set_curvature orKeep orKeepOption
         Update.text Update.fontSize Update.fontFamily Update.bold Update.italic
         Update.alignment Update.curved Update.curvature Update.xPosition
         Update.yPosition Update.isDragging Update.letterSpacing
         Update.textEffect negb];
    destruct cv, cu as [[|]|]; cbn; try reflexivity;
    try (intros [H | H]; congruence); try congruence;
    try (intros; congruence).
Qed.

(** [onValueChange_shown]: the bottom curve picked for a straight line. *)
Lemma onValueChange_shown_witness :
  exists line',
    nth_error
      (Design.lines
         (EditorControls.onValueChange Hook.updateLine Hook.toggleCurvedText
            0 EditorControls.curvedBottom
            (Design.withLines [sampleLine "MAROC" 0 0] Hook.initialDesign)))
      0 = Some line'
    /\ EditorControls.selectValue line' = EditorControls.curvedBottom.
Proof.
  destruct (onValueChange_shown 0 EditorControls.curvedBottom
              (Design.withLines [sampleLine "MAROC" 0 0] Hook.initialDesign)
              (sampleLine "MAROC" 0 0) eq_refl)
    as (line' & Hn & _ & Hs & _).
  exists line'. split; [exact Hn|]. apply Hs. right. discriminate.
Defined.

(** X29. The curved-text switch of [TextLinesEditor] fails on a missing
    line only.  Otherwise, wired to [useStampDesigner] or to
    [useStampDesignerEnhanced], it leads to the same design, in which the
    line is curved: a straight line becomes curved along the top, a curved
    one changes sides, and nothing else changes.  With the enhanced hook
    [undo] brings the design before the click back. *)
Theorem handleToggleCurvedText_spec (index : nat)
    (history : Enhanced.DesignHistoryState) :
  let design := Enhanced.present history in
  (forall (R : Type) (updateLine : Z -> Update.StampTextLine -> R)
          (toggleCurvedText : Z -> R),
      EditorControls.handleToggleCurvedText updateLine toggleCurvedText
        (Design.lines design) index = None
      <-> (List.length (Design.lines design) <= index)%nat)
  /\ (forall line,
        nth_error (Design.lines design) index = Some line ->
        exists update update' history' line',
          EditorControls.handleToggleCurvedText Hook.updateLine
            (fun i => Hook.toggleCurvedText i top) (Design.lines design) index
          = Some update
          /\ EditorControls.handleToggleCurvedText Enhanced.updateLine
               (fun i => Enhanced.toggleCurvedText i top) (Design.lines design) index
             = Some update'
          /\ update' history = Some history'
          /\ Enhanced.present history' = update design
          /\ Enhanced.present (Enhanced.undo history') = design
          /\ nth_error (Design.lines (update design)) index = Some line'
          /\ curved line' = true
          /\ sameButCurve line' line
          /\ (curved line = false -> curvature line' = Some top)
          /\ (curved line = true ->
              curvature line'
              = Some (match curvature line with
                      | Some top => bottom
                      | _ => top
                      end))
          /\ (forall j, j <> index ->
                nth_error (Design.lines (update design)) j
                = nth_error (Design.lines design) j)
          /\ Design.withLines (Design.lines design) (update design) = design).
Proof.
  cbv zeta. unfold EditorControls.handleToggleCurvedText. split.
  - intros R updateLine toggleCurvedText. rewrite <- nth_error_None.
    destruct (nth_error (Design.lines (Enhanced.present history)) index) as [line|];
      [|split; reflexivity].
    destruct (negb (curved line)); split; discriminate.
  - intros line Hn. rewrite Hn.
    assert (H0 : (0 <= Z.of_nat index)%Z) by lia.
    assert (Hn' : nth_error (Design.lines (Enhanced.present history))
                    (Z.to_nat (Z.of_nat index)) = Some line)
      by now rewrite Nat2Z.id.
    pose proof (enhanced_toggleCurvedText_in_range index top history line Hn) as Ht.
    pose proof (fun u => enhanced_updateLine_in_range index u history line Hn) as Hu.
    pose proof (fun u => updateLine_in_range (Z.of_nat index) u _ line H0 Hn') as Hb.
    pose proof (toggleCurvedText_in_range (Z.of_nat index) top _ line H0 Hn') as Hc.
    rewrite Nat2Z.id in Hb, Hc.
    destruct line as [t fs ff b it al cv cu xp yp dr ls te].
    cbn [curved curvature] in *.
    destruct cv; cbn [negb] in *;
      do 4 eexists;
      (split; [reflexivity|]); (split; [reflexivity|]);
      cbv beta; rewrite ?Ht, ?Hu, ?Hb, ?Hc;
      (split; [reflexivity|]);
      (split; [reflexivity|]);
      (split; [apply undo_updateHistory|]);
      rewrite withLines_lines;
      (split; [eapply replaceAt_nth_same; exact Hn|]);
      (split; [reflexivity|]);
      (split; [reflexivity|]);
      (split; [intros H; first [reflexivity | discriminate]|]);
      (split; [intros H; first [reflexivity | discriminate]|]);
      (split; [intros j Hj; now apply replaceAt_nth_other|]);
      rewrite withLines_twice; apply withLines_same.
Qed.

(** [handleToggleCurvedText_spec]: the switch on a line curved along the
    top. *)
Lemma handleToggleCurvedText_spec_witness :
  exists update line',
    EditorControls.handleToggleCurvedText Hook.updateLine
      (fun i => Hook.toggleCurvedText i top)
      [set_curved true (sampleLine "MAROC" 0 0)] 0 = Some update
    /\ nth_error
         (Design.lines
            (update (Design.withLines [set_curved true (sampleLine "MAROC" 0 0)]
                       Hook.initialDesign))) 0 = Some line'
    /\ curvature line' = Some bottom.
Proof.
  destruct (proj2 (handleToggleCurvedText_spec 0
                     {| Enhanced.past := [];
                        Enhanced.present :=
                          Design.withLines [set_curved true (sampleLine "MAROC" 0 0)]
                            Hook.initialDesign;
                        Enhanced.future := [] |}) _ eq_refl)
    as (update & _ & _ & line' & Hu & _ & _ & _ & _ & Hn & _ & _ & _ & Hc & _).
  exists update, line'. split; [exact Hu|]. split; [exact Hn|].
  exact (Hc eq_refl).
Defined.

(** ** The number of lines *)




